(** * build_docs.py: the multi-version documentation build, embedded and verified

    The script [scripts/build_docs.py] builds a Docusaurus site once per
    version: it patches [redirects.js] and [docusaurus.config.js], runs the
    external build, merges the output directory [build] into the staging
    directory [build__temp], restores [redirects.js], and finally promotes the
    staging directory.

    The embedding below follows the script statement by statement.  The
    Python library calls the script relies on are modelled from their
    documented behaviour:
    - [str.replace], string comparison and [sorted];
    - [fileinput.input(..., inplace=1)], which opens the file in text mode
      (universal newlines on reading) and redirects [print] into the file;
    - [re.sub] with the pattern [^var buildVersion.*] and a replacement
      template (backslash escapes of the template are processed);
    - [shutil.copytree(..., dirs_exist_ok=True)], [shutil.rmtree],
      [shutil.move], [os.path.isdir];
    - [subprocess.run] without [check=True], and [sys.exit] with a message.

    Characters are Rocq's 8-bit [ascii]; a file content is a [string]. *)

From Stdlib Require Import String Ascii List Bool Arith Lia ZArith.
From Stdlib Require Import Sorting.Permutation Sorting.Sorted.
From Stdlib Require OrderedTypeEx.
Import ListNotations.

Local Open Scope list_scope.
Local Open Scope string_scope.

(* ===================================================================== *)
(** * Part I: definitions *)
(* ===================================================================== *)

(** ** Python [str] *)

Definition LF : ascii := "010"%char.
Definition CR : ascii := "013"%char.
Definition SLASH : ascii := "/"%char.
Definition BACKSLASH : ascii := "\"%char.

(** [s.startswith(p)]. *)
Fixpoint startswith (p s : string) : bool :=
  match p with
  | EmptyString => true
  | String a p' =>
      match s with
      | EmptyString => false
      | String b s' => Ascii.eqb a b && startswith p' s'
      end
  end.

(** [sub in s]: [sub] occurs in [s] as a contiguous substring. *)
Fixpoint str_in (sub s : string) : bool :=
  startswith sub s ||
  match s with
  | EmptyString => false
  | String _ s' => str_in sub s'
  end.

(** [c in s] for a single character. *)
Fixpoint char_in (c : ascii) (s : string) : bool :=
  match s with
  | EmptyString => false
  | String a s' => Ascii.eqb c a || char_in c s'
  end.

(** The scan of [str.replace] for a non-empty [old]: left to right, an
    occurrence of [old] is replaced by [new] and the scan resumes after it.
    [skip] counts the characters of the current occurrence still to pass. *)
Fixpoint replace_from (old new : string) (skip : nat) (s : string) : string :=
  match s with
  | EmptyString => EmptyString
  | String c s' =>
      match skip with
      | S k => replace_from old new k s'
      | O =>
          if startswith old s
          then new ++ replace_from old new (String.length old - 1) s'
          else String c (replace_from old new 0 s')
      end
  end.

(** With an empty [old], Python inserts [new] at every position. *)
Fixpoint interleave (new s : string) : string :=
  match s with
  | EmptyString => EmptyString
  | String c s' => String c (new ++ interleave new s')
  end.

(** [s.replace(old, new)]. *)
Definition str_replace (old new s : string) : string :=
  match old with
  | EmptyString => new ++ interleave new s
  | String _ _ => replace_from old new 0 s
  end.

(** ** Text files and [fileinput] *)

(** Reading in text mode with the default [newline=None]: the sequences
    CR LF and CR are translated to LF. *)
Fixpoint universal_newlines (s : string) : string :=
  match s with
  | EmptyString => EmptyString
  | String c s' =>
      if Ascii.eqb c CR then
        match s' with
        | String c' _ =>
            if Ascii.eqb c' LF then universal_newlines s'
            else String LF (universal_newlines s')
        | EmptyString => String LF EmptyString
        end
      else String c (universal_newlines s')
  end.

(** Iterating over a text: each line keeps its terminating LF; the last line
    may be unterminated. *)
Fixpoint splitlines (s : string) : list string :=
  match s with
  | EmptyString => []
  | String c s' =>
      if Ascii.eqb c LF then String c EmptyString :: splitlines s'
      else match splitlines s' with
           | [] => [String c EmptyString]
           | l :: ls => String c l :: ls
           end
  end.

(** The lines [fileinput.input(name)] yields for a file of content [s]. *)
Definition readlines (s : string) : list string :=
  splitlines (universal_newlines s).

(** What a sequence of [print(x, end='')] writes.  On POSIX, [os.linesep] is
    LF and writing in text mode translates nothing. *)
Fixpoint printed (xs : list string) : string :=
  match xs with
  | [] => EmptyString
  | x :: xs' => x ++ printed xs'
  end.

(** [for line in fileinput.input(name, inplace=1): print(f(line), end='')]. *)
Definition inplace (f : string -> string) (content : string) : string :=
  printed (map f (readlines content)).

(** The part of a string before its first LF, and the part from it on. *)
Fixpoint before_LF (s : string) : string :=
  match s with
  | EmptyString => EmptyString
  | String c s' => if Ascii.eqb c LF then EmptyString else String c (before_LF s')
  end.

Fixpoint from_LF (s : string) : string :=
  match s with
  | EmptyString => EmptyString
  | String c s' => if Ascii.eqb c LF then s else from_LF s'
  end.

(** ** [re.sub] with the pattern [^var buildVersion.*]

    The replacement is a template: [re] tokenises it (a backslash pairs with
    the character after it), then processes escapes and group references
    ([re._parser.parse_template]).  The pattern has no capturing group, so
    the only valid group reference is group 0.

    The model follows CPython 3.12 and later.  Inside [\g<...>] the
    interpreters differ: up to CPython 3.11 the number may also carry a
    sign, blanks or underscores (as [int] reads them), which 3.12 refuses.
    The properties of this development that depend on a template either
    take a replacement without backslash, which every version copies as it
    is, or one of the escapes [\n], or are stated for a rewrite that
    returns. *)

Inductive token : Type :=
| Chr (c : ascii)
| Esc (c : ascii).

(** [pending] is set after a backslash; a template ending in a lone backslash
    is an error. *)
Fixpoint tokenize (pending : bool) (s : string) : option (list token) :=
  match s with
  | EmptyString => if pending then None else Some []
  | String c s' =>
      if pending then option_map (cons (Esc c)) (tokenize false s')
      else if Ascii.eqb c BACKSLASH then tokenize true s'
      else option_map (cons (Chr c)) (tokenize false s')
  end.

Inductive item : Type :=
| Literal (c : ascii)
| WholeMatch.

Definition octal_digit (c : ascii) : option nat :=
  let n := nat_of_ascii c in
  if (48 <=? n)%nat && (n <=? 55)%nat then Some (n - 48) else None.

Definition is_digit (c : ascii) : bool :=
  let n := nat_of_ascii c in ((48 <=? n)%nat && (n <=? 57)%nat).

Definition is_ascii_letter (c : ascii) : bool :=
  let n := nat_of_ascii c in
  ((65 <=? n)%nat && (n <=? 90)%nat) || ((97 <=? n)%nat && (n <=? 122)%nat).

(** The escapes [\a \b \f \n \r \t \v \\]. *)
Definition escape (c : ascii) : option ascii :=
  if Ascii.eqb c "a" then Some (ascii_of_nat 7)
  else if Ascii.eqb c "b" then Some (ascii_of_nat 8)
  else if Ascii.eqb c "f" then Some (ascii_of_nat 12)
  else if Ascii.eqb c "n" then Some LF
  else if Ascii.eqb c "r" then Some CR
  else if Ascii.eqb c "t" then Some (ascii_of_nat 9)
  else if Ascii.eqb c "v" then Some (ascii_of_nat 11)
  else if Ascii.eqb c BACKSLASH then Some BACKSLASH
  else None.

Inductive mode : Type :=
| Text
| GroupName (len : nat) (zeros : bool).

Definition is_zero (t : token) : bool :=
  match t with
  | Chr c => Ascii.eqb c "0"
  | Esc _ => false
  end.

(** The longest string of digits [int] converts
    ([sys.int_info.default_max_str_digits]). *)
Definition max_str_digits : nat := 4300.

(** [None] stands for the exception the template raises ([re.error],
    [IndexError] for an unknown group name, [ValueError] for a number that
    [int] refuses).  In [GroupName len zeros] the scan is inside [\g<...>]:
    [len] characters of the name were read and [zeros] tells whether all of
    them were the digit 0. *)
Fixpoint parse_template (m : mode) (ts : list token) : option (list item) :=
  match m with
  | GroupName len zeros =>
      match ts with
      | [] => None
      | t :: ts' =>
          match t with
          | Chr ">"%char =>
              if (len =? 0)%nat || negb zeros || (max_str_digits <? len)%nat then None
              else option_map (cons WholeMatch) (parse_template Text ts')
          | _ => parse_template (GroupName (S len) (zeros && is_zero t)) ts'
          end
      end
  | Text =>
      match ts with
      | [] => Some []
      | Chr c :: ts' => option_map (cons (Literal c)) (parse_template Text ts')
      | Esc c :: ts' =>
          if Ascii.eqb c "g" then
            match ts' with
            | Chr "<"%char :: ts'' => parse_template (GroupName 0 true) ts''
            | _ => None
            end
          else if Ascii.eqb c "0" then
            match ts' with
            | Chr d1 :: ts1 =>
                match octal_digit d1 with
                | Some n1 =>
                    match ts1 with
                    | Chr d2 :: ts2 =>
                        match octal_digit d2 with
                        | Some n2 =>
                            option_map (cons (Literal (ascii_of_nat (8 * n1 + n2))))
                                       (parse_template Text ts2)
                        | None =>
                            option_map (cons (Literal (ascii_of_nat n1)))
                                       (parse_template Text ts1)
                        end
                    | _ =>
                        option_map (cons (Literal (ascii_of_nat n1)))
                                   (parse_template Text ts1)
                    end
                | None =>
                    option_map (cons (Literal (ascii_of_nat 0)))
                               (parse_template Text ts')
                end
            | _ =>
                option_map (cons (Literal (ascii_of_nat 0)))
                           (parse_template Text ts')
            end
          else if is_digit c then
            match ts' with
            | Chr d1 :: Chr d2 :: ts2 =>
                match octal_digit c, octal_digit d1, octal_digit d2 with
                | Some n0, Some n1, Some n2 =>
                    let value := 64 * n0 + 8 * n1 + n2 in
                    if (value <=? 255)%nat
                    then option_map (cons (Literal (ascii_of_nat value)))
                                    (parse_template Text ts2)
                    else None
                | _, _, _ => None
                end
            | _ => None
            end
          else
            match escape c with
            | Some e => option_map (cons (Literal e)) (parse_template Text ts')
            | None =>
                if is_ascii_letter c then None
                else option_map (fun r => Literal BACKSLASH :: Literal c :: r)
                                (parse_template Text ts')
            end
      end
  end.

Definition compile_template (repl : string) : option (list item) :=
  match tokenize false repl with
  | Some ts => parse_template Text ts
  | None => None
  end.

(** The text a compiled template stands for, given the matched text. *)
Fixpoint expand (items : list item) (matched : string) : string :=
  match items with
  | [] => EmptyString
  | Literal c :: items' => String c (expand items' matched)
  | WholeMatch :: items' => matched ++ expand items' matched
  end.

Definition buildVersion_prefix : string := "var buildVersion".

Definition DQUOTE : ascii := "034"%char.

(** [f'var buildVersion = "{v}";']. *)
Definition declaration (v : string) : string :=
  "var buildVersion = " ++ String DQUOTE (v ++ String DQUOTE ";").

(** [re.sub(r"^var buildVersion.*", repl, line)].  The template is compiled
    before the search.  [^] matches at the start of [line] only and [.]
    matches everything but LF, so the one possible match runs from the start
    of [line] to its first LF. *)
Definition re_sub (repl line : string) : option string :=
  match compile_template repl with
  | None => None
  | Some items =>
      Some (if startswith buildVersion_prefix line
            then expand items (before_LF line) ++ from_LF line
            else line)
  end.

(** [print(re.sub(...), end='')] over the lines of a file: the first
    exception ends the loop. *)
Fixpoint sub_lines (repl : string) (lines : list string) : option (list string) :=
  match lines with
  | [] => Some []
  | l :: ls =>
      match re_sub repl l with
      | None => None
      | Some l' => option_map (cons l') (sub_lines repl ls)
      end
  end.

(** What [re.sub] returns when the template is taken literally: a line that
    starts with [var buildVersion] becomes [repl], up to its LF. *)
Definition set_line (repl line : string) : string :=
  if startswith buildVersion_prefix line then repl ++ from_LF line else line.

(** The tokens and the compiled form of a template without backslash. *)
Fixpoint plain_tokens (s : string) : list token :=
  match s with
  | EmptyString => []
  | String c s' => Chr c :: plain_tokens s'
  end.

Fixpoint plain_items (s : string) : list item :=
  match s with
  | EmptyString => []
  | String c s' => Literal c :: plain_items s'
  end.

(** The configuration file after the rewrite for version [v], when the
    template is taken literally. *)
Definition config_for (v content : string) : string :=
  printed (map (set_line (declaration v)) (readlines content)).

(** ** Directory trees and [shutil] *)

#[local] Unset Elimination Schemes.
Inductive node : Type :=
| File (data : string)
| Dir (entries : list (string * node)).
#[local] Set Elimination Schemes.

Abbreviation dir := (list (string * node)).

Fixpoint lookup (name : string) (d : dir) : option node :=
  match d with
  | [] => None
  | (n, x) :: d' => if String.eqb name n then Some x else lookup name d'
  end.

Fixpoint put (name : string) (x : node) (d : dir) : dir :=
  match d with
  | [] => [(name, x)]
  | (n, y) :: d' =>
      if String.eqb name n then (name, x) :: d' else (n, y) :: put name x d'
  end.

(** The node a relative path leads to. *)
Fixpoint node_at (p : list string) (x : node) : option node :=
  match p with
  | [] => Some x
  | n :: p' =>
      match x with
      | File _ => None
      | Dir es =>
          match lookup n es with
          | Some y => node_at p' y
          | None => None
          end
      end
  end.

(** The content of the regular file a path leads to, from a node and from
    the top of a directory. *)
Definition file_in (p : list string) (x : node) : option string :=
  match node_at p x with
  | Some (File data) => Some data
  | _ => None
  end.

Definition file_at (p : list string) (d : dir) : option string :=
  file_in p (Dir d).

(** [q] is an initial segment of the path [p]. *)
Definition on_path (q p : list string) : Prop := exists r, p = (q ++ r)%list.

Fixpoint mem (name : string) (names : list string) : bool :=
  match names with
  | [] => false
  | n :: names' => String.eqb name n || mem name names'
  end.

Fixpoint distinct (names : list string) : bool :=
  match names with
  | [] => true
  | n :: names' => negb (mem n names') && distinct names'
  end.

(** A directory lists each name once, at every level. *)
Fixpoint well_formed (x : node) : bool :=
  match x with
  | File _ => true
  | Dir es =>
      distinct (map fst es) &&
      (fix all (es : dir) : bool :=
         match es with
         | [] => true
         | (_, y) :: es' => well_formed y && all es'
         end) es
  end.

(** [shutil.copy2(src, dst/name)] for a regular file of content [data]: when
    [dst/name] is a directory the file goes inside it, under its own name;
    opening a directory for writing fails.  The boolean is [false] when an
    [OSError] was raised. *)
Definition copy2 (name data : string) (dst : dir) : dir * bool :=
  match lookup name dst with
  | Some (Dir sub) =>
      match lookup name sub with
      | Some (Dir _) => (dst, false)
      | _ => (put name (Dir (put name (File data) sub)) dst, true)
      end
  | _ => (put name (File data) dst, true)
  end.

(** One iteration of the loop of [shutil._copytree] over the entries of the
    source: a directory is copied by a recursive [copytree] (whose
    [os.makedirs(dst, exist_ok=True)] fails on a regular file), anything else
    by [copy2].  Errors are collected and the loop goes on. *)
Fixpoint copy_entry (name : string) (x : node) (dst : dir) {struct x} : dir * bool :=
  match x with
  | File data => copy2 name data dst
  | Dir entries =>
      let into (sub : dir) : dir * bool :=
        let r :=
          (fix loop (es : dir) (acc : dir) : dir * bool :=
             match es with
             | [] => (acc, true)
             | (n, y) :: es' =>
                 let r1 := copy_entry n y acc in
                 let r2 := loop es' (fst r1) in
                 (fst r2, snd r1 && snd r2)
             end) entries sub in
        (put name (Dir (fst r)) dst, snd r) in
      match lookup name dst with
      | Some (File _) => (dst, false)
      | Some (Dir sub) => into sub
      | None => into []
      end
  end.

Fixpoint copy_entries (es : dir) (acc : dir) : dir * bool :=
  match es with
  | [] => (acc, true)
  | (n, y) :: es' =>
      let r1 := copy_entry n y acc in
      let r2 := copy_entries es' (fst r1) in
      (fst r2, snd r1 && snd r2)
  end.

(** [shutil.copytree(src, dst, dirs_exist_ok=True)] on the contents of the two
    directories; the boolean is [false] when [shutil.Error] is raised at the
    end. *)
Definition copytree (src dst : dir) : dir * bool := copy_entries src dst.

(** What a merge of [src] into [dst] with result [dst'] keeps.  Every
    regular file of [dst] is still a regular file. *)
Definition files_survive (dst dst' : dir) : Prop :=
  forall p data, file_at p dst = Some data -> exists data', file_at p dst' = Some data'.

(** A file of [dst] keeps its content when [src] has no regular file at its
    path, nor at an initial segment of its path. *)
Definition contents_survive (src dst dst' : dir) : Prop :=
  forall p data,
    file_at p dst = Some data ->
    (forall q, on_path q p -> file_at q src = None) ->
    file_at p dst' = Some data.

(** A file of [dst] that [src] has too, at the same path, gets the content
    it has in [src]. *)
Definition overwritten (src dst dst' : dir) : Prop :=
  forall p data data',
    file_at p src = Some data' ->
    file_at p dst = Some data ->
    file_at p dst' = Some data'.

Definition merge_spec (src dst dst' : dir) : Prop :=
  files_survive dst dst' /\
  (well_formed (Dir src) = true ->
   contents_survive src dst dst' /\ overwritten src dst dst').

(** ** [sorted] on strings *)

(** The order of [str]: characters are compared by code, so the comparison is
    case-sensitive. *)
Definition le (a b : string) : Prop := String.leb a b = true.

Fixpoint insert (v : string) (l : list string) : list string :=
  match l with
  | [] => [v]
  | x :: l' => if String.leb v x then v :: l else x :: insert v l'
  end.

(** [sorted(versions)]: ascending in the order of [str], which compares
    character codes.  Equal strings are the same string, so stability does
    not show. *)
Fixpoint sorted (l : list string) : list string :=
  match l with
  | [] => []
  | v :: l' => insert v (sorted l')
  end.

(** ** The site project: two text files and two directories *)

Inductive filename : Type :=
| redirects_js             (* "redirects.js" *)
| docusaurus_config_js.    (* "docusaurus.config.js" *)

Inductive dirname : Type :=
| build_dir                (* build_dir = "build" *)
| temp_dir.                (* temp_dir = "build__temp" *)

Definition basename (d : dirname) : string :=
  match d with
  | build_dir => "build"
  | temp_dir => "build__temp"
  end.

(** The two text files exist throughout; a directory is absent ([None]) or
    holds a tree of regular files and directories. *)
Record FS : Type := mkFS {
  redirects : string;
  config : string;
  build : option dir;
  build__temp : option dir
}.

Definition read (f : filename) (s : FS) : string :=
  match f with
  | redirects_js => redirects s
  | docusaurus_config_js => config s
  end.

Definition write (f : filename) (content : string) (s : FS) : FS :=
  match f with
  | redirects_js => mkFS content (config s) (build s) (build__temp s)
  | docusaurus_config_js => mkFS (redirects s) content (build s) (build__temp s)
  end.

Definition get_dir (d : dirname) (s : FS) : option dir :=
  match d with
  | build_dir => build s
  | temp_dir => build__temp s
  end.

Definition set_dir (d : dirname) (x : option dir) (s : FS) : FS :=
  match d with
  | build_dir => mkFS (redirects s) (config s) x (build__temp s)
  | temp_dir => mkFS (redirects s) (config s) (build s) x
  end.

(** What the process does that is visible from outside. *)
Inductive event : Type :=
| Print (line : string)
| Run (argv : list string).

(** The exceptions the script lets through; [ReError] is the one [re.sub]
    raises on its replacement template. *)
Inductive exn : Type :=
| ReError
| ShutilError
| FileNotFoundError.

Definition not_built : string :=
  "ERROR: The docs were not built. Check Docusaurus logs.".

Section Orchestrator.

(** The rest of the machine, as far as the external commands depend on it
    or change it. *)
Context {Ext : Type}.

(** An external command, run to completion: from its arguments, the state
    of the rest of the machine and the file system, it leaves a new state,
    a new file system and an exit code. *)
Variable command : list string -> Ext -> FS -> Ext * FS * Z.

Record World : Type := mkWorld {
  fs : FS;
  ext : Ext;
  trace : list event
}.

(** A statement returns, or ends the process through [sys.exit(msg)], or
    raises an exception nothing catches.  After an exception only the trace
    is kept: the file under rewrite is left truncated. *)
Inductive result (A : Type) : Type :=
| Ok (a : A) (w : World)
| SysExit (msg : string) (w : World)
| Raised (e : exn) (t : list event).

Arguments Ok {A} a w.
Arguments SysExit {A} msg w.
Arguments Raised {A} e t.

Definition M (A : Type) : Type := World -> result A.

Definition ret {A : Type} (a : A) : M A := fun w => Ok a w.

Definition bind {A B : Type} (m : M A) (k : A -> M B) : M B :=
  fun w =>
    match m w with
    | Ok a w' => k a w'
    | SysExit msg w' => SysExit msg w'
    | Raised e t => Raised e t
    end.

Notation "x <- m ;; k" := (bind m (fun x => k))
  (at level 61, m at next level, right associativity).
Notation "m ;; k" := (bind m (fun _ => k))
  (at level 61, right associativity).

Definition log (e : event) (w : World) : World :=
  mkWorld (fs w) (ext w) (trace w ++ [e])%list.

Definition on_fs (f : FS -> FS) (w : World) : World :=
  mkWorld (f (fs w)) (ext w) (trace w).

(** [print(line)] on the standard output. *)
Definition print (line : string) : M unit :=
  fun w => Ok tt (log (Print line) w).

(** [subprocess.run(argv)]: no [check=True], so the call returns the exit
    code inside the [CompletedProcess] whatever it is. *)
Definition subprocess_run (argv : list string) : M Z :=
  fun w =>
    let '(e, s, code) := command argv (ext w) (fs w) in
    Ok code (mkWorld s e (trace w ++ [Run argv])%list).

(** [sys.exit(msg)]. *)
Definition sys_exit {A : Type} (msg : string) : M A :=
  fun w => SysExit msg w.

(** [for line in fileinput.input(f, inplace=1): print(g(line), end='')]. *)
Definition fileinput_inplace (f : filename) (g : string -> string) : M unit :=
  fun w => Ok tt (on_fs (fun s => write f (inplace g (read f s)) s) w).

(** The same loop with [re.sub] in it, which can raise. *)
Definition fileinput_sub (f : filename) (repl : string) : M unit :=
  fun w =>
    match sub_lines repl (readlines (read f (fs w))) with
    | Some lines => Ok tt (on_fs (write f (printed lines)) w)
    | None => Raised ReError (trace w)
    end.

(** [os.path.isdir(d)]. *)
Definition os_path_isdir (d : dirname) : M bool :=
  fun w =>
    Ok (match get_dir d (fs w) with Some _ => true | None => false end) w.

(** [shutil.rmtree(d, ignore_errors=...)]. *)
Definition shutil_rmtree (d : dirname) (ignore_errors : bool) : M unit :=
  fun w =>
    match get_dir d (fs w) with
    | Some _ => Ok tt (on_fs (set_dir d None) w)
    | None => if ignore_errors then Ok tt w else Raised FileNotFoundError (trace w)
    end.

(** [shutil.copytree(src, dst, dirs_exist_ok=True)]. *)
Definition shutil_copytree (src dst : dirname) : M unit :=
  fun w =>
    match get_dir src (fs w) with
    | None => Raised FileNotFoundError (trace w)
    | Some from =>
        let into := match get_dir dst (fs w) with Some d => d | None => [] end in
        let r := copytree from into in
        if snd r then Ok tt (on_fs (set_dir dst (Some (fst r))) w)
        else Raised ShutilError (trace w)
    end.

(** [shutil.move(src, dst)]: a rename when [dst] does not exist; into [dst]
    when it is a directory. *)
Definition shutil_move (src dst : dirname) : M unit :=
  fun w =>
    match get_dir src (fs w) with
    | None => Raised FileNotFoundError (trace w)
    | Some from =>
        match get_dir dst (fs w) with
        | None =>
            Ok tt (on_fs (fun s => set_dir src None (set_dir dst (Some from) s)) w)
        | Some d =>
            match lookup (basename src) d with
            | Some _ => Raised ShutilError (trace w)
            | None =>
                Ok tt (on_fs (fun s =>
                         set_dir src None
                           (set_dir dst (Some (put (basename src) (Dir from) d)) s)) w)
            end
        end
    end.

(** *** The body of the loop of [build_docs], block by block *)

(** Replace latest in redirects to the appropriate version. *)
Definition redirect_to_version (v : string) : M unit :=
  if negb (String.eqb v "latest")
  then fileinput_inplace redirects_js
         (fun line => str_replace "/latest/" ("/" ++ v ++ "/") line)
  else ret tt.

(** Set the version in the buildVersion variable in docusaurus.config.js. *)
Definition set_buildVersion (v : string) : M unit :=
  let replacement := declaration v in
  fileinput_sub docusaurus_config_js replacement.

(** Build the docs. *)
Definition build_the_docs (use_yarn : bool) : M unit :=
  if negb use_yarn
  then _ <- subprocess_run ["npm"; "run"; "build"] ;; ret tt
  else _ <- subprocess_run ["yarn"; "build"] ;; ret tt.

(** Move output to temporary directory since docusaurus 3 overwrites build
    directory with each build. *)
Definition move_output : M unit :=
  built <- os_path_isdir build_dir ;;
  (if negb built then sys_exit not_built else ret tt) ;;
  shutil_copytree build_dir temp_dir.

(** Restore the redirect file back to URLs with latest. *)
Definition restore_redirects (v : string) : M unit :=
  if negb (String.eqb v "latest")
  then fileinput_inplace redirects_js
         (fun line => str_replace ("/" ++ v ++ "/") "/latest/" line)
  else ret tt.

Definition build_version (use_yarn : bool) (v : string) : M unit :=
  print ("Building the docs for version '" ++ v ++ "'...") ;;
  redirect_to_version v ;;
  set_buildVersion v ;;
  build_the_docs use_yarn ;;
  move_output ;;
  restore_redirects v.

(** [for v in versions: ...] *)
Fixpoint for_versions (use_yarn : bool) (versions : list string) : M unit :=
  match versions with
  | [] => ret tt
  | v :: versions' =>
      build_version use_yarn v ;; for_versions use_yarn versions'
  end.

Definition build_docs (versions : list string) (use_yarn : bool) : M unit :=
  for_versions use_yarn versions ;;
  (* after building ALL versions, rename the temp directory back to build *)
  shutil_rmtree build_dir false ;;
  shutil_move temp_dir build_dir.

(** Install docusaurus. *)
Definition install (skip_install use_yarn : bool) : M unit :=
  if negb skip_install then
    print "Installing Docusaurus..." ;;
    (if negb use_yarn
     then _ <- subprocess_run ["npm"; "install"] ;; ret tt
     else _ <- subprocess_run ["yarn"; "install"] ;; ret tt)
  else ret tt.

(** [main]: [os.chdir("../")] makes the site root the working directory,
    where the four paths above live. *)
Definition main (versions : list string) (skip_install use_yarn : bool) : M unit :=
  let versions := sorted versions in
  install skip_install use_yarn ;;
  (* remove the old build directory *)
  shutil_rmtree build_dir true ;;
  (* do the actual builds *)
  build_docs versions use_yarn.

(** The exit status of the process: 0 when [main] returns; 1 after
    [sys.exit] with a message (printed on the standard error) and after an
    uncaught exception. *)
Definition exit_status (r : result unit) : Z :=
  match r with
  | Ok _ _ => 0%Z
  | SysExit _ _ => 1%Z
  | Raised _ _ => 1%Z
  end.

Definition trace_of (r : result unit) : list event :=
  match r with
  | Ok _ w => trace w
  | SysExit _ w => trace w
  | Raised _ t => t
  end.

End Orchestrator.

Arguments Ok {Ext A} a w.
Arguments SysExit {Ext A} msg w.
Arguments Raised {Ext A} e t.
Arguments World Ext : clear implicits.
Arguments result Ext A : clear implicits.
Arguments M Ext A : clear implicits.

Notation "x <- m ;; k" := (bind m (fun x => k))
  (at level 61, m at next level, right associativity).
Notation "m ;; k" := (bind m (fun _ => k))
  (at level 61, right associativity).

(** The line [build_docs] prints when it starts on version [v]. *)
Definition announce (v : string) : string :=
  "Building the docs for version '" ++ v ++ "'...".

(** The build command of the selected toolchain. *)
Definition build_argv (use_yarn : bool) : list string :=
  if negb use_yarn then ["npm"; "run"; "build"] else ["yarn"; "build"].

(** The install command of the selected toolchain. *)
Definition install_argv (use_yarn : bool) : list string :=
  if negb use_yarn then ["npm"; "install"] else ["yarn"; "install"].

(** The commands of a trace, in order. *)
Fixpoint commands (t : list event) : list (list string) :=
  match t with
  | [] => []
  | Run argv :: t' => argv :: commands t'
  | Print _ :: t' => commands t'
  end.

(** The lines printed on the standard output, in order. *)
Fixpoint output (t : list event) : list string :=
  match t with
  | [] => []
  | Print line :: t' => line :: output t'
  | Run _ :: t' => output t'
  end.

(** ** What may be assumed of the external commands *)

(** The commands do not write to the redirect file. *)
Definition leaves_redirects {Ext : Type}
  (command : list string -> Ext -> FS -> Ext * FS * Z) : Prop :=
  forall argv e s, redirects (snd (fst (command argv e s))) = redirects s.

(** The commands do not write to the configuration file. *)
Definition leaves_config {Ext : Type}
  (command : list string -> Ext -> FS -> Ext * FS * Z) : Prop :=
  forall argv e s, config (snd (fst (command argv e s))) = config s.

(** The same commands, had each of them exited with status 0. *)
Definition succeeding {Ext : Type}
  (command : list string -> Ext -> FS -> Ext * FS * Z)
  : list string -> Ext -> FS -> Ext * FS * Z :=
  fun argv e s => (fst (command argv e s), 0%Z).

(** A version is plain when it holds no line break and no backslash. *)
Definition plain (v : string) : bool :=
  negb (char_in LF v) && negb (char_in CR v) && negb (char_in BACKSLASH v).

(** The two rewrites of the redirect file for version [v]. *)
Definition to_version (v line : string) : string :=
  str_replace "/latest/" ("/" ++ v ++ "/") line.

Definition to_latest (v line : string) : string :=
  str_replace ("/" ++ v ++ "/") "/latest/" line.

(** ** Fixtures: a scripted build tool and a small site *)

(** The state of the scripted tool: what each coming build leaves as output
    directory, and its exit code. *)
Abbreviation script := (list (option dir * Z)).

Definition is_install (argv : list string) : bool :=
  match argv with
  | [_; a] => String.eqb a "install"
  | _ => false
  end.

(** The install command changes nothing and exits with [install_code]; a
    build replaces the output directory as the script says. *)
Definition scripted (install_code : Z) (argv : list string) (e : script) (s : FS)
  : script * FS * Z :=
  if is_install argv then (e, s, install_code)
  else match e with
       | [] => (e, set_dir build_dir None s, 1%Z)
       | (out, code) :: e' => (e', set_dir build_dir out s, code)
       end.

Definition page (data : string) : dir := [("index.html", File data)].

Definition site : FS :=
  mkFS ("sidebar: /latest/operations/foo" ++ String LF EmptyString)
       ("var buildVersion = " ++ String DQUOTE ("0" ++ String DQUOTE (";" ++ String LF EmptyString)))
       None None.

Definition start (s : FS) (e : script) : World script := mkWorld s e [].

Definition NL : string := String LF EmptyString.
Definition CRLF : string := String CR (String LF EmptyString).

(** Two builds that leave an output directory and exit with status 0. *)
Definition builds : script :=
  [(Some (page "9.0.0"), 0%Z); (Some (page "latest"), 0%Z)].

(** The same, the first build exiting with status 2. *)
Definition failing : script :=
  [(Some (page "9.0.0"), 2%Z); (Some (page "latest"), 0%Z)].

(** A build that exits with status 0 and leaves no output directory. *)
Definition silent : script := [(None, 0%Z)].

(** A site whose redirect file already names the version 9.0.0. *)
Definition site_with_version : FS :=
  mkFS ("old: /9.0.0/intro" ++ NL ++ "new: /latest/intro" ++ NL)
       (declaration "0" ++ NL)
       None None.

(** A site whose configuration file has CR LF line ends. *)
Definition site_crlf : FS :=
  mkFS ("sidebar: /latest/operations/foo" ++ NL)
       ("// site" ++ CRLF ++ declaration "0" ++ CRLF)
       None None.

(** A site with an output directory and a staging directory. *)
Definition site_staged : FS :=
  mkFS ("sidebar: /latest/operations/foo" ++ NL)
       (declaration "0" ++ NL)
       (Some [("index.html", File "B"); ("docs", Dir [("b.html", File "B")])])
       (Some [("index.html", File "A"); ("docs", Dir [("a.html", File "A")])]).

(** ** Further notions used in the properties *)

(** Along the path [p], no name is a regular file on one side and a
    directory on the other. *)
Definition kinds_agree (p : list string) (src dst : dir) : Prop :=
  forall q, on_path q p ->
    match node_at q (Dir src), node_at q (Dir dst) with
    | Some (File _), Some (Dir _) => False
    | Some (Dir _), Some (File _) => False
    | _, _ => True
    end.

(** The build commands do not write to the staging directory. *)
Definition leaves_staging {Ext : Type}
  (command : list string -> Ext -> FS -> Ext * FS * Z) : Prop :=
  forall argv e s, build__temp (snd (fst (command argv e s))) = build__temp s.

(** The build command leaves no output directory where there was none. *)
Definition builds_nothing {Ext : Type}
  (command : list string -> Ext -> FS -> Ext * FS * Z) (argv : list string) : Prop :=
  forall e s, build s = None -> build (snd (fst (command argv e s))) = None.

(** The regular files of a directory that may be absent. *)
Definition file_of (p : list string) (d : option dir) : option string :=
  match d with
  | Some x => file_at p x
  | None => None
  end.

(** ** More fixtures *)

(** A site without "/latest/" in its redirect file and without declaration in
    its configuration file. *)
Definition site_bare : FS :=
  mkFS ("home: /docs/intro" ++ NL) ("// no declaration" ++ NL) None None.

(** A site whose two files have CR LF line ends. *)
Definition site_dos : FS :=
  mkFS ("sidebar: /latest/operations/foo" ++ CRLF)
       ("// site" ++ CRLF ++ declaration "0" ++ CRLF)
       None None.

(** A site whose configuration file declares the version twice. *)
Definition site_twice : FS :=
  mkFS ("sidebar: /latest/operations/foo" ++ NL)
       (declaration "0" ++ NL ++ "// again" ++ NL ++ declaration "1")
       None None.

(** A site with the output and the staging directory of an earlier run. *)
Definition site_stale : FS :=
  mkFS ("sidebar: /latest/operations/foo" ++ NL)
       (declaration "0" ++ NL)
       (Some (page "old build"))
       (Some [("old.html", File "old")]).

(** A site with an output directory and no staging directory. *)
Definition site_built : FS :=
  mkFS ("sidebar: /latest/operations/foo" ++ NL)
       (declaration "0" ++ NL)
       (Some [("index.html", File "B"); ("docs", Dir [("b.html", File "B")])])
       None.

(** A site where "docs" is a directory of the output and a regular file of
    the staging directory. *)
Definition site_clash : FS :=
  mkFS ("sidebar: /latest/operations/foo" ++ NL)
       (declaration "0" ++ NL)
       (Some [("docs", Dir [("a.html", File "A")])])
       (Some [("docs", File "x")]).

(** Two builds with different files. *)
Definition builds_apart : script :=
  [(Some [("9.html", File "9")], 0%Z); (Some [("index.html", File "latest")], 0%Z)].

(** A command that exits with status 0 and does nothing. *)
Definition broken (argv : list string) (e : script) (s : FS) : script * FS * Z :=
  (e, s, 0%Z).

(** A site whose configuration file has a line before the declaration and
    two lines after it, the second of them indented and followed by blanks,
    the last one without line end. *)
Definition site_lines : FS :=
  mkFS ("sidebar: /latest/operations/foo" ++ NL)
       ("// site" ++ NL ++ declaration "0" ++ NL
        ++ "  module.exports = {};  " ++ NL ++ "// end")
       None None.

(** A build command that leaves the pages of 9.0.0 the first time it runs,
    and afterwards exits with status 0 without writing anything; the rest of
    the machine tells whether it has run. *)
Definition flaky (argv : list string) (fresh : bool) (s : FS) : bool * FS * Z :=
  if is_install argv then (fresh, s, 0%Z)
  else if fresh then (false, set_dir build_dir (Some (page "9.0.0")) s, 0%Z)
  else (false, s, 0%Z).

(* ===================================================================== *)
(** * Part II: properties *)
(* ===================================================================== *)

(** ** Strings *)

#[local] Arguments Ascii.eqb : simpl never.
#[local] Arguments String.eqb : simpl never.

Lemma append_nil_r (s : string) : s ++ EmptyString = s.
Proof. induction s as [|c s IH]; simpl; [reflexivity | now rewrite IH]. Qed.

Lemma append_assoc (a b c : string) : (a ++ b) ++ c = a ++ b ++ c.
Proof. induction a as [|x a IH]; simpl; [reflexivity | now rewrite IH]. Qed.

Lemma length_append (a b : string) :
  String.length (a ++ b) = String.length a + String.length b.
Proof. induction a as [|x a IH]; simpl; [reflexivity | now rewrite IH]. Qed.

Lemma startswith_append (p t : string) : startswith p (p ++ t) = true.
Proof.
  induction p as [|a p IH]; simpl; [reflexivity|].
  now rewrite Ascii.eqb_refl, IH.
Qed.

Lemma startswith_split (p s : string) :
  startswith p s = true -> exists t, s = p ++ t.
Proof.
  revert s; induction p as [|a p IH]; intros s H.
  - now exists s.
  - destruct s as [|b s]; simpl in H; [discriminate|].
    apply andb_true_iff in H as [Hab Hp].
    apply Ascii.eqb_eq in Hab; subst b.
    destruct (IH s Hp) as [t ->]. now exists t.
Qed.

Lemma startswith_weaken (p q s : string) :
  startswith (p ++ q) s = true -> startswith p s = true.
Proof.
  revert s; induction p as [|a p IH]; intros s H; [reflexivity|].
  destruct s as [|b s]; simpl in *; [discriminate|].
  apply andb_true_iff in H as [Hab Hp].
  now rewrite Hab, (IH s Hp).
Qed.

Lemma startswith_extend (p s t : string) :
  startswith p s = true -> startswith p (s ++ t) = true.
Proof.
  intros H. destruct (startswith_split _ _ H) as [u ->].
  rewrite append_assoc. apply startswith_append.
Qed.

Lemma char_in_append (c : ascii) (a b : string) :
  char_in c (a ++ b) = char_in c a || char_in c b.
Proof.
  induction a as [|x a IH]; simpl; [reflexivity|].
  now rewrite IH, orb_assoc.
Qed.

Lemma str_in_tail (sub a t : string) :
  str_in sub (a ++ t) = false -> str_in sub t = false.
Proof.
  induction a as [|x a IH]; simpl; intros H; [exact H|].
  apply orb_false_iff in H as [_ H]. now apply IH.
Qed.

Lemma str_in_head (sub s : string) :
  str_in sub s = false -> startswith sub s = false.
Proof.
  destruct s; simpl; intros H; now apply orb_false_iff in H as [H _].
Qed.

(** *** The equations of [str.replace] *)

Lemma replace_from_skip (old new a t : string) :
  replace_from old new (String.length a) (a ++ t) = replace_from old new 0 t.
Proof.
  induction a as [|x a IH]; simpl; [|exact IH].
  destruct t; reflexivity.
Qed.

Lemma str_replace_nil (c : ascii) (old new : string) :
  str_replace (String c old) new EmptyString = EmptyString.
Proof. reflexivity. Qed.

Lemma str_replace_hit (c : ascii) (old new t : string) :
  str_replace (String c old) new (String c old ++ t)
  = new ++ str_replace (String c old) new t.
Proof.
  unfold str_replace.
  change (String c old ++ t) with (String c (old ++ t)).
  cbn [replace_from].
  change (String c (old ++ t)) with (String c old ++ t).
  rewrite startswith_append.
  replace (String.length (String c old) - 1) with (String.length old)
    by (simpl; lia).
  now rewrite replace_from_skip.
Qed.

Lemma str_replace_miss (c x : ascii) (old new s : string) :
  startswith (String c old) (String x s) = false ->
  str_replace (String c old) new (String x s)
  = String x (str_replace (String c old) new s).
Proof.
  intros H. unfold str_replace. cbn [replace_from]. now rewrite H.
Qed.

(** Induction along the scan of [str.replace]. *)
Lemma replace_scan_ind (c : ascii) (old : string) (P : string -> Prop) :
  P EmptyString ->
  (forall t, P t -> P (String c old ++ t)) ->
  (forall x s, startswith (String c old) (String x s) = false -> P s -> P (String x s)) ->
  forall s, P s.
Proof.
  intros Hnil Hhit Hmiss s.
  remember (String.length s) as n eqn:Hn.
  revert s Hn. induction n as [n IH] using lt_wf_ind. intros s Hn.
  destruct s as [|x s]; [exact Hnil|].
  destruct (startswith (String c old) (String x s)) eqn:E.
  - destruct (startswith_split _ _ E) as [t Ht]. rewrite Ht.
    apply Hhit. apply (IH (String.length t)); [|reflexivity].
    rewrite Hn, Ht, length_append. simpl. lia.
  - apply Hmiss; [exact E|]. apply (IH (String.length s)); [|reflexivity].
    rewrite Hn. simpl. lia.
Qed.

(** A prefix that does not contain [c] cannot reach across a [c]. *)
Lemma startswith_before_char (c : ascii) (p l r : string) :
  char_in c p = false ->
  startswith p (l ++ String c r) = true -> startswith p l = true.
Proof.
  revert l; induction p as [|a p IH]; intros l Hc H; [reflexivity|].
  simpl in Hc. apply orb_false_iff in Hc as [Hca Hcp].
  destruct l as [|y l]; simpl in H |- *.
  - apply andb_true_iff in H as [Hac _].
    apply Ascii.eqb_eq in Hac; subst a. now rewrite Ascii.eqb_refl in Hca.
  - apply andb_true_iff in H as [Hay H]. rewrite Hay. simpl. now apply IH.
Qed.

(** [str.replace] works on both sides of a character foreign to [old]. *)
Lemma str_replace_around (c o : ascii) (old new r : string) :
  char_in c (String o old) = false ->
  forall l,
    str_replace (String o old) new (l ++ String c r)
    = str_replace (String o old) new l ++ String c (str_replace (String o old) new r).
Proof.
  intros Hc l. induction l as [|t IH|x s Hmiss IH] using (replace_scan_ind o old).
  - simpl (EmptyString ++ _). rewrite str_replace_nil. simpl (EmptyString ++ _).
    apply str_replace_miss.
    simpl in Hc |- *. apply orb_false_iff in Hc as [Hco _].
    rewrite Ascii.eqb_sym, Hco. reflexivity.
  - rewrite append_assoc, !str_replace_hit, IH. now rewrite append_assoc.
  - change (String x s ++ String c r) with (String x (s ++ String c r)).
    rewrite !str_replace_miss, IH; [reflexivity|exact Hmiss|].
    destruct (startswith (String o old) (String x (s ++ String c r))) eqn:E;
      [|reflexivity].
    change (String x (s ++ String c r)) with (String x s ++ String c r) in E.
    apply (startswith_before_char c) in E; [congruence|exact Hc].
Qed.

(** No character appears out of nothing. *)
Lemma char_in_str_replace (c o : ascii) (old new s : string) :
  char_in c s = false -> char_in c new = false ->
  char_in c (str_replace (String o old) new s) = false.
Proof.
  intros Hs Hnew.
  induction s as [|t IH|x s Hmiss IH] using (replace_scan_ind o old).
  - reflexivity.
  - rewrite str_replace_hit, char_in_append, Hnew. simpl.
    rewrite char_in_append in Hs. apply orb_false_iff in Hs as [_ Hs]. now apply IH.
  - rewrite str_replace_miss by exact Hmiss.
    cbn [char_in] in Hs |- *. apply orb_false_iff in Hs as [Hx Hs].
    now rewrite Hx, IH.
Qed.

(** *** Forward and back: ["/latest/"] to ["/v/"] and ["/v/"] to ["/latest/"]

    [a] is the text after the first slash of the first pattern; [v] holds no
    slash. *)
Section RoundTrip.

Variables a v : string.
Hypothesis v_no_slash : char_in SLASH v = false.

Local Abbreviation A := (String SLASH a).
Local Abbreviation B := (String SLASH (v ++ "/")).

Lemma forward_head (x : ascii) (t : string) :
  (exists u, str_replace A B (String x t) = String SLASH u /\ x = SLASH) \/
  (startswith A (String x t) = false /\
   str_replace A B (String x t) = String x (str_replace A B t)).
Proof.
  destruct (startswith A (String x t)) eqn:E.
  - left. destruct (startswith_split _ _ E) as [u Hu].
    rewrite Hu. rewrite str_replace_hit.
    exists ((v ++ "/") ++ str_replace (String SLASH a) B u). split; [reflexivity|].
    cbn [append] in Hu. congruence.
  - right. split; [reflexivity|]. now apply str_replace_miss.
Qed.

(** What follows a slash in the rewritten text, up to the next slash, was
    there before the rewrite. *)
Lemma startswith_forward (w : string) :
  char_in SLASH w = false ->
  forall t,
    startswith (w ++ "/") (str_replace A B t) = true ->
    startswith (w ++ "/") t = true.
Proof.
  induction w as [|c w IH]; intros Hw t H.
  - destruct t as [|x t]; [discriminate H|].
    destruct (forward_head x t) as [[u [Hu ->]] | [_ Hu]].
    + reflexivity.
    + rewrite Hu in H. exact H.
  - cbn [char_in] in Hw. apply orb_false_iff in Hw as [Hc Hw].
    destruct t as [|x t]; [discriminate H|].
    destruct (forward_head x t) as [[u [Hu ->]] | [_ Hu]]; rewrite Hu in H;
      cbn [startswith append] in H |- *; apply andb_true_iff in H as [Hcx H].
    + apply Ascii.eqb_eq in Hcx; subst c. now rewrite Ascii.eqb_refl in Hc.
    + rewrite Hcx. cbn [andb]. now apply IH.
Qed.

Lemma replace_round_trip (s : string) :
  str_in B s = false ->
  str_replace B A (str_replace A B s) = s.
Proof.
  induction s as [|t IH|x s Hmiss IH] using (replace_scan_ind SLASH a);
    intros Hin.
  - reflexivity.
  - rewrite !str_replace_hit, IH; [reflexivity|].
    now apply str_in_tail in Hin.
  - rewrite str_replace_miss by exact Hmiss.
    cbn [str_in] in Hin. apply orb_false_iff in Hin as [Hhead Hin].
    rewrite str_replace_miss; [now rewrite IH|].
    match goal with |- ?lhs = false => destruct lhs eqn:E end; [|reflexivity].
    cbn [startswith] in E, Hhead.
    apply andb_true_iff in E as [Ex E].
    apply (startswith_forward v v_no_slash) in E.
    now rewrite Ex, E in Hhead.
Qed.

End RoundTrip.

(** ** Lines *)

Lemma universal_newlines_id (s : string) :
  char_in CR s = false -> universal_newlines s = s.
Proof.
  induction s as [|c s IH]; simpl; intros H; [reflexivity|].
  apply orb_false_iff in H as [Hc Hs].
  rewrite Ascii.eqb_sym, Hc. now rewrite IH.
Qed.

Lemma universal_newlines_no_CR (s : string) :
  char_in CR (universal_newlines s) = false.
Proof.
  induction s as [|c s IH]; [reflexivity|].
  cbn [universal_newlines].
  destruct (Ascii.eqb c CR) eqn:E.
  - destruct s as [|c' s]; [reflexivity|].
    destruct (Ascii.eqb c' LF); [exact IH|]. simpl. exact IH.
  - simpl. rewrite Ascii.eqb_sym, E. exact IH.
Qed.

Lemma splitlines_line (body rest : string) :
  char_in LF body = false ->
  splitlines (body ++ String LF rest) = (body ++ String LF EmptyString) :: splitlines rest.
Proof.
  induction body as [|c body IH]; simpl; intros H; [reflexivity|].
  apply orb_false_iff in H as [Hc Hb].
  rewrite Ascii.eqb_sym, Hc, (IH Hb). reflexivity.
Qed.

Lemma splitlines_last (body : string) :
  char_in LF body = false -> body <> EmptyString -> splitlines body = [body].
Proof.
  induction body as [|c body IH]; simpl; intros H Hne; [congruence|].
  apply orb_false_iff in H as [Hc Hb].
  rewrite Ascii.eqb_sym, Hc.
  destruct body as [|c' body]; [reflexivity|].
  rewrite IH; [reflexivity|exact Hb|discriminate].
Qed.

(** Induction on a text, line by line. *)
Lemma lines_ind (P : string -> Prop) :
  P EmptyString ->
  (forall body, char_in LF body = false -> body <> EmptyString -> P body) ->
  (forall body rest, char_in LF body = false -> P rest -> P (body ++ String LF rest)) ->
  forall s, P s.
Proof.
  intros Hnil Hlast Hline.
  assert (H : forall s pre, char_in LF pre = false -> P (pre ++ s)).
  { induction s as [|c s IH]; intros pre Hpre.
    - rewrite append_nil_r. destruct pre; [exact Hnil|].
      apply Hlast; [exact Hpre|discriminate].
    - destruct (Ascii.eqb LF c) eqn:E.
      + apply Ascii.eqb_eq in E; subst c.
        apply Hline; [exact Hpre|]. apply (IH EmptyString). reflexivity.
      + replace (pre ++ String c s) with ((pre ++ String c EmptyString) ++ s)
          by (rewrite append_assoc; reflexivity).
        apply IH. rewrite char_in_append, Hpre. simpl. now rewrite E. }
  intros s. apply (H s EmptyString). reflexivity.
Qed.

(** With no LF in [old], replacing line by line is replacing in the text. *)
Lemma printed_replace_lines (o : ascii) (old new s : string) :
  char_in LF (String o old) = false ->
  printed (map (str_replace (String o old) new) (splitlines s))
  = str_replace (String o old) new s.
Proof.
  intros Hold.
  induction s as [|body Hb Hne|body rest Hb IH] using lines_ind.
  - reflexivity.
  - rewrite splitlines_last by assumption. cbn [map printed]. apply append_nil_r.
  - rewrite splitlines_line by assumption. cbn [map printed]. rewrite IH.
    rewrite !(str_replace_around LF) by exact Hold.
    rewrite str_replace_nil, append_assoc. reflexivity.
Qed.

Lemma inplace_replace (o : ascii) (old new content : string) :
  char_in LF (String o old) = false ->
  inplace (str_replace (String o old) new) content
  = str_replace (String o old) new (universal_newlines content).
Proof. intros H. unfold inplace, readlines. now apply printed_replace_lines. Qed.

Lemma printed_app (xs ys : list string) :
  printed (xs ++ ys) = printed xs ++ printed ys.
Proof.
  induction xs as [|x xs IH]; simpl; [reflexivity|].
  now rewrite IH, append_assoc.
Qed.

Lemma printed_splitlines (s : string) : printed (splitlines s) = s.
Proof.
  induction s as [|body Hb Hne|body rest Hb IH] using lines_ind.
  - reflexivity.
  - rewrite splitlines_last by assumption. simpl. apply append_nil_r.
  - rewrite splitlines_line by assumption. simpl. rewrite IH.
    now rewrite append_assoc.
Qed.

Lemma printed_readlines (s : string) :
  char_in CR s = false -> printed (readlines s) = s.
Proof.
  intros H. unfold readlines. rewrite universal_newlines_id by exact H.
  apply printed_splitlines.
Qed.

(** The round trip of the redirect file, as the two loops of [build_docs]
    perform it. *)
Lemma redirects_round_trip (v content : string) :
  char_in SLASH v = false ->
  char_in LF v = false ->
  char_in CR v = false ->
  char_in CR content = false ->
  str_in ("/" ++ v ++ "/") content = false ->
  inplace (fun line => str_replace ("/" ++ v ++ "/") "/latest/" line)
          (inplace (fun line => str_replace "/latest/" ("/" ++ v ++ "/") line) content)
  = content.
Proof.
  intros Hslash Hlf Hcr Hcontent Hin.
  change ("/" ++ v ++ "/") with (String SLASH (v ++ "/")) in *.
  change "/latest/" with (String SLASH "latest/").
  change (fun line => str_replace (String SLASH (v ++ "/")) (String SLASH "latest/") line)
    with (str_replace (String SLASH (v ++ "/")) (String SLASH "latest/")).
  change (fun line => str_replace (String SLASH "latest/") (String SLASH (v ++ "/")) line)
    with (str_replace (String SLASH "latest/") (String SLASH (v ++ "/"))).
  assert (HB : forall c, char_in c v = false -> Ascii.eqb c SLASH = false ->
                         char_in c (String SLASH (v ++ "/")) = false).
  { intros c Hv Hc. unfold SLASH in *. cbn [char_in].
    rewrite char_in_append, Hv, Hc. cbn [char_in]. now rewrite Hc. }
  rewrite (inplace_replace SLASH "latest/") by reflexivity.
  rewrite inplace_replace by (apply HB; [exact Hlf|reflexivity]).
  rewrite (universal_newlines_id content) by exact Hcontent.
  rewrite universal_newlines_id.
  - now apply replace_round_trip.
  - apply char_in_str_replace; [exact Hcontent|].
    apply HB; [exact Hcr|reflexivity].
Qed.

(** ** The replacement template *)

Lemma tokenize_plain (s : string) :
  char_in BACKSLASH s = false -> tokenize false s = Some (plain_tokens s).
Proof.
  induction s as [|c s IH]; simpl; intros H; [reflexivity|].
  apply orb_false_iff in H as [Hc Hs].
  rewrite Ascii.eqb_sym, Hc, (IH Hs). reflexivity.
Qed.

Lemma parse_plain (s : string) :
  parse_template Text (plain_tokens s) = Some (plain_items s).
Proof.
  induction s as [|c s IH]; [reflexivity|].
  cbn [plain_tokens plain_items parse_template]. now rewrite IH.
Qed.

Lemma expand_plain (s matched : string) : expand (plain_items s) matched = s.
Proof. induction s as [|c s IH]; simpl; [reflexivity | now rewrite IH]. Qed.

Lemma re_sub_plain (repl line : string) :
  char_in BACKSLASH repl = false ->
  re_sub repl line = Some (set_line repl line).
Proof.
  intros H. unfold re_sub, compile_template, set_line.
  rewrite tokenize_plain by exact H. rewrite parse_plain.
  now rewrite expand_plain.
Qed.

Lemma sub_lines_plain (repl : string) (lines : list string) :
  char_in BACKSLASH repl = false ->
  sub_lines repl lines = Some (map (set_line repl) lines).
Proof.
  intros H. induction lines as [|l ls IH]; [reflexivity|].
  cbn [sub_lines map]. rewrite re_sub_plain by exact H. now rewrite IH.
Qed.

(** A character that is neither in the fixed text of the declaration nor in
    the version is not in the declaration. *)
Lemma declaration_free (c : ascii) (v : string) :
  char_in c (declaration EmptyString) = false ->
  char_in c v = false ->
  char_in c (declaration v) = false.
Proof.
  unfold declaration. remember "var buildVersion = " as pre.
  intros H Hv. rewrite char_in_append in *. cbn [char_in append] in *.
  rewrite char_in_append, Hv. cbn [char_in].
  destruct (char_in c pre), (Ascii.eqb c DQUOTE), (Ascii.eqb c ";");
    simpl in *; congruence.
Qed.

(** ** The rewrite of the configuration file, line by line *)

Lemma from_LF_body (body : string) :
  char_in LF body = false -> from_LF body = EmptyString.
Proof.
  induction body as [|c body IH]; simpl; intros H; [reflexivity|].
  apply orb_false_iff in H as [Hc Hb].
  rewrite Ascii.eqb_sym, Hc. now apply IH.
Qed.

Lemma from_LF_line (body rest : string) :
  char_in LF body = false -> from_LF (body ++ String LF rest) = String LF rest.
Proof.
  induction body as [|c body IH]; cbn [from_LF append char_in]; intros H.
  - now rewrite Ascii.eqb_refl.
  - apply orb_false_iff in H as [Hc Hb].
    rewrite Ascii.eqb_sym, Hc. now apply IH.
Qed.

Lemma startswith_line (p body rest : string) :
  char_in LF p = false ->
  startswith p (body ++ String LF rest) = startswith p body.
Proof.
  intros Hp. destruct (startswith p body) eqn:E.
  - now apply startswith_extend.
  - destruct (startswith p (body ++ String LF rest)) eqn:E'; [|reflexivity].
    apply startswith_before_char in E'; [congruence|exact Hp].
Qed.

Lemma set_line_body (repl body : string) :
  char_in LF body = false ->
  set_line repl body = if startswith buildVersion_prefix body then repl else body.
Proof.
  intros H. unfold set_line. rewrite from_LF_body by exact H.
  now rewrite append_nil_r.
Qed.

Lemma set_line_line (repl body : string) :
  char_in LF body = false ->
  set_line repl (body ++ String LF EmptyString)
  = (if startswith buildVersion_prefix body then repl else body) ++ String LF EmptyString.
Proof.
  intros H. unfold set_line.
  rewrite startswith_line by reflexivity. rewrite from_LF_line by exact H.
  now destruct (startswith buildVersion_prefix body).
Qed.

(** A second rewrite finds the declaration the first one wrote, on the same
    line: the last write wins. *)
Lemma set_lines_twice (ra rb s : string) :
  char_in LF ra = false ->
  startswith buildVersion_prefix ra = true ->
  printed (map (set_line rb) (splitlines (printed (map (set_line ra) (splitlines s)))))
  = printed (map (set_line rb) (splitlines s)).
Proof.
  intros Hlf Hstart.
  assert (Hne : ra <> EmptyString) by (intros ->; discriminate Hstart).
  assert (Hpick : forall body, char_in LF body = false ->
            char_in LF (if startswith buildVersion_prefix body then ra else body) = false)
    by (intros body Hb; now destruct (startswith buildVersion_prefix body)).
  assert (Hagain : forall body,
            (if startswith buildVersion_prefix
                  (if startswith buildVersion_prefix body then ra else body)
             then rb
             else if startswith buildVersion_prefix body then ra else body)
            = if startswith buildVersion_prefix body then rb else body).
  { intros body. destruct (startswith buildVersion_prefix body) eqn:E.
    - now rewrite Hstart.
    - now rewrite E. }
  induction s as [|body Hb Hbne|body rest Hb IH] using lines_ind.
  - reflexivity.
  - rewrite (splitlines_last body) by assumption. cbn [map printed].
    rewrite append_nil_r, (set_line_body ra) by exact Hb.
    rewrite splitlines_last.
    + cbn [map printed]. rewrite !set_line_body by auto. now rewrite Hagain.
    + now apply Hpick.
    + now destruct (startswith buildVersion_prefix body).
  - rewrite (splitlines_line body rest) by assumption. cbn [map printed].
    rewrite (set_line_line ra) by exact Hb.
    rewrite append_assoc. cbn [append].
    rewrite splitlines_line by now apply Hpick.
    cbn [map printed]. rewrite IH.
    rewrite !set_line_line by auto. now rewrite Hagain.
Qed.

Lemma set_lines_no_CR (ra s : string) :
  char_in CR ra = false ->
  char_in CR s = false ->
  char_in CR (printed (map (set_line ra) (splitlines s))) = false.
Proof.
  intros Hra.
  induction s as [|body Hb Hbne|body rest Hb IH] using lines_ind; intros Hs.
  - reflexivity.
  - rewrite (splitlines_last body) by assumption. cbn [map printed].
    rewrite append_nil_r, set_line_body by exact Hb.
    now destruct (startswith buildVersion_prefix body).
  - rewrite (splitlines_line body rest) by assumption. cbn [map printed].
    rewrite set_line_line by exact Hb.
    rewrite char_in_append in Hs. cbn [char_in] in Hs.
    apply orb_false_iff in Hs as [Hbody Hs]. apply orb_false_iff in Hs as [_ Hrest].
    rewrite !char_in_append, (IH Hrest). cbn [char_in].
    destruct (startswith buildVersion_prefix body); now rewrite ?Hra, ?Hbody.
Qed.

(** A version is plain when it holds no line break and no backslash: its
    declaration is then one line, and a literal template. *)
Lemma startswith_declaration (v : string) :
  startswith buildVersion_prefix (declaration v) = true.
Proof. reflexivity. Qed.

Lemma config_for_twice (a b content : string) :
  char_in LF a = false ->
  char_in CR a = false ->
  config_for b (config_for a content) = config_for b content.
Proof.
  intros Hlf Hcr. unfold config_for, readlines.
  rewrite (universal_newlines_id (printed _)).
  - apply set_lines_twice; [|apply startswith_declaration].
    now apply declaration_free.
  - apply set_lines_no_CR; [|apply universal_newlines_no_CR].
    now apply declaration_free.
Qed.

(** ** [sorted] *)

Lemma leb_cases (a b : string) :
  String.leb a b = true <-> OrderedTypeEx.String_as_OT.lt a b \/ a = b.
Proof.
  unfold String.leb. split.
  - destruct (String.compare a b) eqn:E; intros H; try discriminate.
    + right. now apply String.compare_eq_iff.
    + left. now apply OrderedTypeEx.String_as_OT.cmp_lt.
  - intros [H | ->].
    + apply OrderedTypeEx.String_as_OT.cmp_lt in H.
      unfold OrderedTypeEx.String_as_OT.cmp in H. now rewrite H.
    + assert (E : String.compare b b = Eq)
        by now apply OrderedTypeEx.String_as_OT.cmp_eq.
      now rewrite E.
Qed.

Lemma le_trans (a b c : string) : le a b -> le b c -> le a c.
Proof.
  unfold le. rewrite !leb_cases. intros [Hab | ->] [Hbc | ->]; auto.
  left. eapply OrderedTypeEx.String_as_OT.lt_trans; eauto.
Qed.

Lemma le_total (a b : string) : le a b \/ le b a.
Proof. apply String.leb_total. Qed.

Lemma insert_perm (v : string) (l : list string) :
  Permutation (v :: l) (insert v l).
Proof.
  induction l as [|x l IH]; simpl; [reflexivity|].
  destruct (String.leb v x); [reflexivity|].
  rewrite perm_swap. now constructor.
Qed.

Lemma sorted_perm (l : list string) : Permutation l (sorted l).
Proof.
  induction l as [|v l IH]; simpl; [reflexivity|].
  rewrite <- insert_perm. now constructor.
Qed.

Lemma insert_sorted (v : string) (l : list string) :
  StronglySorted le l -> StronglySorted le (insert v l).
Proof.
  induction 1 as [|x l Hl IH Hx]; simpl.
  - repeat constructor.
  - destruct (String.leb v x) eqn:E.
    + constructor; [now constructor|].
      constructor; [exact E|].
      eapply Forall_impl; [|exact Hx]. intros y Hy. now apply (le_trans v x y).
    + constructor; [exact IH|].
      apply (Permutation_Forall (insert_perm v l)).
      constructor; [|exact Hx].
      destruct (le_total v x) as [H | H]; [unfold le in H; congruence | exact H].
Qed.

Lemma sorted_sorted (l : list string) : StronglySorted le (sorted l).
Proof.
  induction l as [|v l IH]; simpl; [constructor|]. now apply insert_sorted.
Qed.

Lemma sorted_In (v : string) (l : list string) : In v (sorted l) <-> In v l.
Proof.
  split; apply Permutation_in; [symmetry|]; apply sorted_perm.
Qed.

(** In a sorted list everything is below the last element. *)
Lemma sorted_last (l : list string) (d u : string) :
  StronglySorted le l -> In u l -> le u (last l d).
Proof.
  intros Hs. revert u.
  induction Hs as [|x l Hl IH Hx]; intros u Hu; [contradiction|].
  destruct l as [|y l].
  - destruct Hu as [<- | []]. apply leb_cases. now right.
  - change (last (x :: y :: l) d) with (last (y :: l) d).
    destruct Hu as [<- | Hu]; [|now apply IH].
    apply (le_trans _ y).
    + now inversion Hx.
    + apply IH. now left.
Qed.

(** ** Lists of lines *)

Lemma filter_one {A : Type} (p : A -> bool) (l : list A) :
  List.length (filter p l) = 1 ->
  exists before x after,
    l = (before ++ x :: after)%list /\ p x = true /\
    filter p before = [] /\ filter p after = [].
Proof.
  induction l as [|y l IH]; cbn [filter]; [discriminate|].
  destruct (p y) eqn:E; cbn [List.length]; intros H.
  - exists [], y, l. repeat split; [exact E|].
    destruct (filter p l); [reflexivity|discriminate].
  - destruct (IH H) as (before & x & after & -> & Hx & Hb & Ha).
    exists (y :: before), x, after. cbn [filter app]. rewrite E. auto.
Qed.

Lemma map_set_line_others (repl : string) (ls : list string) :
  filter (startswith buildVersion_prefix) ls = [] ->
  map (set_line repl) ls = ls.
Proof.
  induction ls as [|l ls IH]; cbn [filter map]; [reflexivity|].
  unfold set_line at 1.
  destruct (startswith buildVersion_prefix l); [discriminate|].
  intros H. now rewrite IH.
Qed.

(** A line is a text without LF, followed by an LF or, at the end of the
    file, by nothing. *)
Lemma splitlines_shape (s l : string) :
  In l (splitlines s) ->
  exists body eol,
    l = body ++ eol /\ char_in LF body = false /\
    (eol = EmptyString \/ eol = String LF EmptyString).
Proof.
  induction s as [|body Hb Hne|body rest Hb IH] using lines_ind.
  - intros [].
  - rewrite splitlines_last by assumption. intros [<- | []].
    exists body, EmptyString. rewrite append_nil_r. auto.
  - rewrite splitlines_line by assumption. intros [<- | H]; [|now apply IH].
    exists body, (String LF EmptyString). auto.
Qed.

(** ** Directory trees *)

(** Induction on a tree, with the hypothesis for every entry of a directory. *)
Lemma node_induction (P : node -> Prop) :
  (forall data, P (File data)) ->
  (forall es, Forall (fun e => P (snd e)) es -> P (Dir es)) ->
  forall x, P x.
Proof.
  intros Hfile Hdir.
  fix IH 1. intros [data | es].
  - apply Hfile.
  - apply Hdir. induction es as [|[n y] es IHes]; constructor; [apply IH | exact IHes].
Qed.

Lemma lookup_put_same (n : string) (x : node) (d : dir) :
  lookup n (put n x d) = Some x.
Proof.
  induction d as [|[m y] d IH]; cbn [put lookup].
  - now rewrite String.eqb_refl.
  - destruct (String.eqb n m) eqn:E; cbn [lookup].
    + now rewrite String.eqb_refl.
    + now rewrite E.
Qed.

Lemma lookup_put_other (n m : string) (x : node) (d : dir) :
  String.eqb m n = false -> lookup m (put n x d) = lookup m d.
Proof.
  intros Hmn. induction d as [|[k y] d IH]; cbn [put lookup].
  - now rewrite Hmn.
  - destruct (String.eqb n k) eqn:E; cbn [lookup].
    + apply String.eqb_eq in E; subst k. now rewrite Hmn.
    + now rewrite IH.
Qed.

Lemma lookup_not_mem (n : string) (es : dir) :
  mem n (map fst es) = false -> lookup n es = None.
Proof.
  induction es as [|[m y] es IH]; cbn [map fst mem lookup]; [reflexivity|].
  intros H. apply orb_false_iff in H as [Hnm H]. now rewrite Hnm, IH.
Qed.

Lemma well_formed_cons (n : string) (y : node) (es : dir) :
  well_formed (Dir ((n, y) :: es)) = true ->
  mem n (map fst es) = false /\ well_formed y = true /\ well_formed (Dir es) = true.
Proof.
  cbn [well_formed map fst distinct]. intros H.
  apply andb_true_iff in H as [H1 H2].
  apply andb_true_iff in H1 as [Hn Hd].
  apply andb_true_iff in H2 as [Hy Hall].
  apply negb_true_iff in Hn. now rewrite Hd, Hall.
Qed.

(** The recursive call of [copy_entry] on a directory is [copy_entries]. *)
Lemma copy_entry_dir (name : string) (es dst : dir) :
  copy_entry name (Dir es) dst
  = match lookup name dst with
    | Some (File _) => (dst, false)
    | Some (Dir sub) =>
        (put name (Dir (fst (copy_entries es sub))) dst, snd (copy_entries es sub))
    | None =>
        (put name (Dir (fst (copy_entries es []))) dst, snd (copy_entries es []))
    end.
Proof. cbn [copy_entry]. destruct (lookup name dst) as [[f | sub]|]; reflexivity. Qed.

(** [copy_entry] touches one name of the destination only. *)
Lemma copy_entry_other (name m : string) (x : node) (dst : dir) :
  String.eqb m name = false ->
  lookup m (fst (copy_entry name x dst)) = lookup m dst.
Proof.
  intros Hm. destruct x as [data | es].
  - cbn [copy_entry]. unfold copy2.
    destruct (lookup name dst) as [[f | sub]|]; cbn [fst];
      try (now apply lookup_put_other).
    destruct (lookup name sub) as [[f | sub']|]; cbn [fst];
      try (now apply lookup_put_other). reflexivity.
  - rewrite copy_entry_dir.
    destruct (lookup name dst) as [[f | sub]|]; cbn [fst];
      try (now apply lookup_put_other). reflexivity.
Qed.

(** What [copy_entry] leaves under the name it copies. *)
Lemma copy_entry_same (name : string) (x : node) (dst : dir) :
  lookup name (fst (copy_entry name x dst))
  = match x, lookup name dst with
    | File data, Some (Dir sub) =>
        match lookup name sub with
        | Some (Dir _) => Some (Dir sub)
        | _ => Some (Dir (put name (File data) sub))
        end
    | File data, _ => Some (File data)
    | Dir es, Some (File f) => Some (File f)
    | Dir es, Some (Dir sub) => Some (Dir (fst (copy_entries es sub)))
    | Dir es, None => Some (Dir (fst (copy_entries es [])))
    end.
Proof.
  destruct x as [data | es].
  - cbn [copy_entry]. unfold copy2.
    destruct (lookup name dst) as [[f | sub]|] eqn:E; cbn [fst];
      try (now apply lookup_put_same).
    destruct (lookup name sub) as [[f | sub']|]; cbn [fst];
      try (now apply lookup_put_same). exact E.
  - rewrite copy_entry_dir.
    destruct (lookup name dst) as [[f | sub]|] eqn:E; cbn [fst];
      try (now apply lookup_put_same). exact E.
Qed.

(** *** What [copytree] keeps and what it overwrites *)

Lemma file_at_cons (m : string) (p : list string) (d : dir) :
  file_at (m :: p) d
  = match lookup m d with
    | Some y => file_in p y
    | None => None
    end.
Proof. unfold file_at, file_in. cbn [node_at]. now destruct (lookup m d). Qed.

Lemma file_in_file (p : list string) (f data : string) :
  file_in p (File f) = Some data -> p = [] /\ data = f.
Proof.
  destruct p as [|m p]; unfold file_in; cbn [node_at]; intros H;
    [now inversion H | discriminate].
Qed.

Lemma on_path_cons (m : string) (q p : list string) :
  on_path q p -> on_path (m :: q) (m :: p).
Proof. intros [r ->]. now exists r. Qed.

Lemma on_path_head (k m : string) (q p : list string) :
  on_path (k :: q) (m :: p) -> k = m.
Proof. intros [r H]. now inversion H. Qed.

Lemma on_path_refl (p : list string) : on_path p p.
Proof. exists []. now rewrite app_nil_r. Qed.

Lemma copy_entries_spec_from (es : dir) :
  Forall (fun e => forall name dst,
            merge_spec [(name, snd e)] dst (fst (copy_entry name (snd e) dst))) es ->
  forall dst, merge_spec es dst (fst (copy_entries es dst)).
Proof.
  induction 1 as [|[n y] es Hy Hes IH]; intros dst.
  - cbn [copy_entries fst]. split; [|intros _; split].
    + intros p data Hp. now exists data.
    + intros p data Hp _. exact Hp.
    + intros p data data' Hs. destruct p; discriminate Hs.
  - cbn [snd] in Hy. cbn [copy_entries fst].
    destruct (Hy n dst) as [Hy0 Hy12]. set (dst1 := fst (copy_entry n y dst)) in *.
    destruct (IH dst1) as [IH0 IH12].
    split.
    + intros p data Hp. destruct (Hy0 p data Hp) as [data1 H1]. exact (IH0 p data1 H1).
    + intros Hwf. apply well_formed_cons in Hwf as (Hn & Hwy & Hwes).
      assert (Hw1 : well_formed (Dir [(n, y)]) = true)
        by (cbn [well_formed map fst distinct mem]; now rewrite Hwy).
      destruct (Hy12 Hw1) as [Hy1 Hy2]. destruct (IH12 Hwes) as [IH1 IH2].
      assert (Hrest : forall p, (exists p', p = n :: p') ->
                forall q, on_path q p -> file_at q es = None).
      { intros p [p' ->] [|k q] Hq; [reflexivity|].
        apply on_path_head in Hq; subst k.
        rewrite file_at_cons, lookup_not_mem by exact Hn. reflexivity. }
      split.
      * intros p data Hp Hq. apply IH1.
        -- apply Hy1; [exact Hp|]. intros [|k q] Hon; [reflexivity|].
           specialize (Hq _ Hon). rewrite file_at_cons in Hq |- *. cbn [lookup] in Hq |- *.
           destruct (String.eqb k n); [exact Hq|reflexivity].
        -- intros [|k q] Hon; [reflexivity|].
           specialize (Hq _ Hon). rewrite file_at_cons in Hq |- *. cbn [lookup] in Hq.
           destruct (String.eqb k n) eqn:E; [|exact Hq].
           apply String.eqb_eq in E; subst k. now rewrite lookup_not_mem.
      * intros p data data' Hs Hp. destruct p as [|m p]; [discriminate Hs|].
        rewrite file_at_cons in Hs. cbn [lookup] in Hs.
        destruct (String.eqb m n) eqn:E.
        -- apply String.eqb_eq in E; subst m.
           apply IH1; [|apply Hrest; now exists p].
           apply (Hy2 _ data); [|exact Hp].
           rewrite file_at_cons. cbn [lookup]. now rewrite String.eqb_refl.
        -- destruct (Hy0 _ _ Hp) as [data1 H1].
           apply (IH2 _ data1); [|exact H1]. now rewrite file_at_cons.
Qed.

Lemma copy_entry_spec (x : node) :
  forall name dst, merge_spec [(name, x)] dst (fst (copy_entry name x dst)).
Proof.
  induction x as [f | es IH] using node_induction; intros name dst.
  - split.
    + intros [|m p] data Hp; [discriminate Hp|].
      rewrite file_at_cons in Hp |- *.
      destruct (String.eqb m name) eqn:E; [|now rewrite copy_entry_other; eauto].
      apply String.eqb_eq in E; subst m. rewrite copy_entry_same.
      destruct (lookup name dst) as [[g | sub]|]; [| |discriminate Hp].
      * apply file_in_file in Hp as [-> _]. now exists f.
      * change (file_in p (Dir sub)) with (file_at p sub) in Hp.
        destruct (lookup name sub) as [[g | sub']|] eqn:E2; [| now exists data |];
          change (file_in p (Dir (put name (File f) sub)))
            with (file_at p (put name (File f) sub));
          (destruct p as [|k p]; [discriminate Hp|]);
          rewrite file_at_cons in Hp |- *;
          (destruct (String.eqb k name) eqn:Ek;
           [ apply String.eqb_eq in Ek; subst k; rewrite lookup_put_same;
             rewrite E2 in Hp
           | rewrite lookup_put_other by exact Ek; now exists data ]).
        -- apply file_in_file in Hp as [-> _]. now exists f.
        -- discriminate Hp.
    + intros _. split.
      * intros [|m p] data Hp Hq; [discriminate Hp|].
        rewrite file_at_cons in Hp |- *.
        destruct (String.eqb m name) eqn:E; [|now rewrite copy_entry_other].
        apply String.eqb_eq in E; subst m.
        specialize (Hq [name] (ex_intro _ p eq_refl)).
        rewrite file_at_cons in Hq. cbn [lookup] in Hq.
        rewrite String.eqb_refl in Hq. discriminate Hq.
      * intros [|m p] data data' Hs Hp; [discriminate Hs|].
        rewrite file_at_cons in Hs, Hp |- *. cbn [lookup] in Hs.
        destruct (String.eqb m name) eqn:E; [|discriminate Hs].
        apply String.eqb_eq in E; subst m.
        apply file_in_file in Hs as [-> ->].
        rewrite copy_entry_same.
        destruct (lookup name dst) as [[g | sub]|]; [reflexivity| |discriminate Hp].
        discriminate Hp.
  - pose proof (copy_entries_spec_from es IH) as L.
    split.
    + intros [|m p] data Hp; [discriminate Hp|].
      rewrite file_at_cons in Hp |- *.
      destruct (String.eqb m name) eqn:E; [|now rewrite copy_entry_other; eauto].
      apply String.eqb_eq in E; subst m. rewrite copy_entry_same.
      destruct (lookup name dst) as [[g | sub]|]; [now exists data| |discriminate Hp].
      exact (proj1 (L sub) p data Hp).
    + intros Hwf.
      assert (Hwes : well_formed (Dir es) = true).
      { apply well_formed_cons in Hwf as (_ & Hw & _). exact Hw. }
      split.
      * intros [|m p] data Hp Hq; [discriminate Hp|].
        rewrite file_at_cons in Hp |- *.
        destruct (String.eqb m name) eqn:E; [|now rewrite copy_entry_other].
        apply String.eqb_eq in E; subst m. rewrite copy_entry_same.
        destruct (lookup name dst) as [[g | sub]|]; [exact Hp| |discriminate Hp].
        apply (proj1 (proj2 (L sub) Hwes) p data Hp).
        intros q Hon. specialize (Hq (name :: q) (on_path_cons name _ _ Hon)).
        rewrite file_at_cons in Hq. cbn [lookup] in Hq.
        now rewrite String.eqb_refl in Hq.
      * intros [|m p] data data' Hs Hp; [discriminate Hs|].
        rewrite file_at_cons in Hs, Hp |- *. cbn [lookup] in Hs.
        destruct (String.eqb m name) eqn:E; [|discriminate Hs].
        apply String.eqb_eq in E; subst m. rewrite copy_entry_same.
        destruct (lookup name dst) as [[g | sub]|]; [| |discriminate Hp].
        -- apply file_in_file in Hp as [-> _]. discriminate Hs.
        -- exact (proj2 (proj2 (L sub) Hwes) p data data' Hs Hp).
Qed.

Lemma copytree_spec (src dst : dir) : merge_spec src dst (fst (copytree src dst)).
Proof.
  unfold copytree. apply copy_entries_spec_from.
  apply Forall_forall. intros [n y] _. apply copy_entry_spec.
Qed.

(** ** More on [str.replace], lines and [sorted] *)

(** Nothing to replace, nothing changes. *)
Lemma str_replace_absent (c : ascii) (old new s : string) :
  str_in (String c old) s = false ->
  str_replace (String c old) new s = s.
Proof.
  induction s as [|t IH|x s Hmiss IH] using (replace_scan_ind c old); intros Hin.
  - reflexivity.
  - apply str_in_head in Hin. now rewrite startswith_append in Hin.
  - rewrite str_replace_miss by exact Hmiss.
    cbn [str_in] in Hin. apply orb_false_iff in Hin as [_ Hin]. now rewrite IH.
Qed.

Lemma universal_newlines_empty (s : string) :
  universal_newlines s = EmptyString -> s = EmptyString.
Proof.
  destruct s as [|c s]; [reflexivity|]. cbn [universal_newlines].
  destruct (Ascii.eqb c CR); [|discriminate].
  destruct s as [|c' s]; [discriminate|].
  destruct (Ascii.eqb c' LF) eqn:E; [|discriminate].
  apply Ascii.eqb_eq in E; subst c'. cbn [universal_newlines].
  change (Ascii.eqb LF CR) with false. discriminate.
Qed.

Lemma splitlines_empty (s : string) : splitlines s = [] -> s = EmptyString.
Proof.
  destruct s as [|c s]; [reflexivity|]. cbn [splitlines].
  destruct (Ascii.eqb c LF); [discriminate|].
  destruct (splitlines s); discriminate.
Qed.

Lemma readlines_empty (s : string) : readlines s = [] <-> s = EmptyString.
Proof.
  split; [|now intros ->].
  intros H. now apply universal_newlines_empty, splitlines_empty.
Qed.

(** Reading back what the rewrite has printed gives the rewritten lines. *)
Lemma splitlines_set_lines (r s : string) :
  char_in LF r = false ->
  r <> EmptyString ->
  splitlines (printed (map (set_line r) (splitlines s)))
  = map (set_line r) (splitlines s).
Proof.
  intros Hr Hne.
  assert (Hpick : forall body, char_in LF body = false ->
            char_in LF (if startswith buildVersion_prefix body then r else body) = false)
    by (intros body Hb; now destruct (startswith buildVersion_prefix body)).
  induction s as [|body Hb Hbne|body rest Hb IH] using lines_ind.
  - reflexivity.
  - rewrite (splitlines_last body) by assumption. cbn [map printed].
    rewrite append_nil_r, set_line_body by exact Hb.
    apply splitlines_last; [now apply Hpick|].
    now destruct (startswith buildVersion_prefix body).
  - rewrite (splitlines_line body rest) by assumption. cbn [map printed].
    rewrite set_line_line by exact Hb.
    rewrite append_assoc. cbn [append].
    rewrite splitlines_line by now apply Hpick.
    now rewrite IH.
Qed.

Lemma le_antisym (a b : string) : le a b -> le b a -> a = b.
Proof. apply String.leb_antisym. Qed.

(** A list has one sorted arrangement. *)
Lemma sorted_unique (l1 : list string) :
  forall l2,
    StronglySorted le l1 -> StronglySorted le l2 -> Permutation l1 l2 -> l1 = l2.
Proof.
  induction l1 as [|x t1 IH]; intros l2 H1 H2 Hp.
  - now apply Permutation_nil in Hp.
  - destruct l2 as [|y t2]; [now apply Permutation_sym, Permutation_nil in Hp|].
    apply StronglySorted_inv in H1 as [H1 Hx].
    apply StronglySorted_inv in H2 as [H2 Hy].
    assert (E : x = y).
    { assert (Hyin : In y (x :: t1))
        by (apply (Permutation_in _ (Permutation_sym Hp)); now left).
      assert (Hxin : In x (y :: t2)) by (apply (Permutation_in _ Hp); now left).
      destruct Hyin as [E | Hyin]; [exact E|].
      destruct Hxin as [E | Hxin]; [now symmetry|].
      apply le_antisym.
      - exact (proj1 (Forall_forall _ _) Hx y Hyin).
      - exact (proj1 (Forall_forall _ _) Hy x Hxin). }
    subst y. f_equal. apply IH; [exact H1|exact H2|].
    now apply Permutation_cons_inv in Hp.
Qed.

Lemma sorted_of_permutation (l l' : list string) :
  Permutation l l' -> sorted l = sorted l'.
Proof.
  intros Hp. apply sorted_unique; try apply sorted_sorted.
  rewrite <- (sorted_perm l), <- (sorted_perm l'). exact Hp.
Qed.

(** *** What [copytree] adds *)

Lemma put_fresh (n : string) (x : node) (d : dir) :
  lookup n d = None -> put n x d = (d ++ [(n, x)])%list.
Proof.
  induction d as [|[m y] d IH]; cbn [lookup put app]; [reflexivity|].
  destruct (String.eqb n m); [discriminate|]. intros H. now rewrite IH.
Qed.

Lemma lookup_app_fresh (m n : string) (x : node) (d : dir) :
  lookup m d = None -> String.eqb m n = false ->
  lookup m (d ++ [(n, x)])%list = None.
Proof.
  induction d as [|[k y] d IH]; cbn [lookup app]; intros H Hmn.
  - now rewrite Hmn.
  - destruct (String.eqb m k); [discriminate|]. now apply IH.
Qed.

Lemma mem_differs (n k : string) (names : list string) :
  mem n names = true -> mem k names = false -> String.eqb n k = false.
Proof.
  intros Hn Hk. destruct (String.eqb n k) eqn:E; [|reflexivity].
  apply String.eqb_eq in E; subst k. congruence.
Qed.

Lemma copy_entries_fresh_from (es : dir) :
  Forall (fun e => well_formed (snd e) = true ->
            forall n acc, lookup n acc = None ->
              copy_entry n (snd e) acc = ((acc ++ [(n, snd e)])%list, true)) es ->
  well_formed (Dir es) = true ->
  forall acc,
    (forall n, mem n (map fst es) = true -> lookup n acc = None) ->
    copy_entries es acc = ((acc ++ es)%list, true).
Proof.
  induction 1 as [|[k y] es Hy Hes IH]; intros Hwf acc Hacc.
  - cbn [copy_entries]. now rewrite app_nil_r.
  - cbn [snd] in Hy. apply well_formed_cons in Hwf as (Hk & Hwy & Hwes).
    cbn [copy_entries].
    rewrite (Hy Hwy k acc)
      by (apply Hacc; cbn [map fst mem]; now rewrite String.eqb_refl).
    cbn [fst snd]. rewrite (IH Hwes).
    + now rewrite <- app_assoc.
    + intros n Hn. apply lookup_app_fresh.
      * apply Hacc. cbn [map fst mem]. rewrite Hn. apply orb_true_r.
      * exact (mem_differs _ _ _ Hn Hk).
Qed.

Lemma copy_entry_fresh (x : node) :
  well_formed x = true ->
  forall n acc, lookup n acc = None ->
    copy_entry n x acc = ((acc ++ [(n, x)])%list, true).
Proof.
  induction x as [f | es IH] using node_induction; intros Hwf n acc Hn.
  - cbn [copy_entry]. unfold copy2. rewrite Hn. now rewrite put_fresh.
  - rewrite copy_entry_dir, Hn.
    rewrite (copy_entries_fresh_from es IH Hwf []) by reflexivity.
    cbn [fst snd app]. now rewrite put_fresh.
Qed.

(** Into an empty directory, [copytree] makes a copy and raises nothing. *)
Lemma copytree_fresh (src : dir) :
  well_formed (Dir src) = true -> copytree src [] = (src, true).
Proof.
  intros Hwf. unfold copytree.
  rewrite (copy_entries_fresh_from src); [reflexivity| |exact Hwf|reflexivity].
  apply Forall_forall. intros [n y] _ Hy. now apply copy_entry_fresh.
Qed.

Lemma node_at_cons (m : string) (q : list string) (d : dir) :
  node_at (m :: q) (Dir d)
  = match lookup m d with
    | Some y => node_at q y
    | None => None
    end.
Proof. reflexivity. Qed.

Lemma on_path_nil (p : list string) : on_path [] p.
Proof. now exists p. Qed.

Lemma copy_entries_adds_from (es : dir) :
  Forall (fun e => well_formed (snd e) = true ->
            forall n dst p data,
              file_in p (snd e) = Some data ->
              kinds_agree (n :: p) [(n, snd e)] dst ->
              file_at (n :: p) (fst (copy_entry n (snd e) dst)) = Some data) es ->
  well_formed (Dir es) = true ->
  forall dst p data,
    file_at p es = Some data ->
    kinds_agree p es dst ->
    file_at p (fst (copy_entries es dst)) = Some data.
Proof.
  induction 1 as [|[k y] es Hy Hes IH]; intros Hwf dst p data Hp Hk.
  - destruct p; discriminate Hp.
  - cbn [snd] in Hy. apply well_formed_cons in Hwf as (Hnk & Hwy & Hwes).
    destruct p as [|m p]; [discriminate Hp|].
    cbn [copy_entries fst]. set (dst1 := fst (copy_entry k y dst)).
    rewrite file_at_cons in Hp. cbn [lookup] in Hp.
    destruct (String.eqb m k) eqn:E.
    + apply String.eqb_eq in E; subst m.
      assert (H1 : file_at (k :: p) dst1 = Some data).
      { apply (Hy Hwy); [exact Hp|].
        intros q Hq. specialize (Hk q Hq).
        destruct q as [|j q]; [exact Hk|].
        apply on_path_head in Hq; subst j.
        rewrite !node_at_cons in Hk |- *. cbn [lookup] in Hk |- *.
        now rewrite String.eqb_refl in Hk |- *. }
      destruct (copytree_spec es dst1) as [_ H12].
      destruct (H12 Hwes) as [Hkeep _].
      apply Hkeep; [exact H1|].
      intros [|j q] Hq; [reflexivity|].
      apply on_path_head in Hq; subst j.
      rewrite file_at_cons, lookup_not_mem by exact Hnk. reflexivity.
    + apply IH; [exact Hwes|now rewrite file_at_cons|].
      intros q Hq. specialize (Hk q Hq).
      destruct q as [|j q]; [exact Hk|].
      pose proof (on_path_head _ _ _ _ Hq) as ->.
      rewrite !node_at_cons in Hk |- *. cbn [lookup] in Hk. rewrite E in Hk.
      unfold dst1. now rewrite copy_entry_other by exact E.
Qed.

Lemma copy_entry_adds (x : node) :
  well_formed x = true ->
  forall n dst p data,
    file_in p x = Some data ->
    kinds_agree (n :: p) [(n, x)] dst ->
    file_at (n :: p) (fst (copy_entry n x dst)) = Some data.
Proof.
  induction x as [f | es IH] using node_induction; intros Hwf n dst p data Hp Hk.
  - apply file_in_file in Hp as [-> ->].
    pose proof (Hk [n] (on_path_refl _)) as H1.
    rewrite !node_at_cons in H1. cbn [lookup node_at] in H1.
    rewrite String.eqb_refl in H1.
    rewrite file_at_cons, copy_entry_same.
    destruct (lookup n dst) as [[g | sub]|]; [reflexivity|contradiction|reflexivity].
  - destruct p as [|m p]; [discriminate Hp|].
    pose proof (Hk [n] (ex_intro _ (m :: p) eq_refl)) as H1.
    rewrite !node_at_cons in H1. cbn [lookup node_at] in H1.
    rewrite String.eqb_refl in H1.
    assert (Hsub : forall sub,
              match lookup n dst with Some (Dir d) => d = sub | None => sub = [] | _ => False end ->
              kinds_agree (m :: p) es sub).
    { intros sub Hs q Hq.
      pose proof (Hk (n :: q) (on_path_cons n _ _ Hq)) as H2.
      rewrite !node_at_cons in H2. cbn [lookup] in H2.
      rewrite String.eqb_refl in H2.
      destruct (lookup n dst) as [[g | d]|]; [contradiction|now subst d|].
      subst sub. destruct q as [|j q]; [exact I|].
      rewrite (node_at_cons j q []). cbn [lookup].
      now destruct (node_at (j :: q) (Dir es)) as [[|]|]. }
    rewrite file_at_cons, copy_entry_same.
    destruct (lookup n dst) as [[g | sub]|]; [contradiction| |];
      apply (copy_entries_adds_from es IH Hwf); try exact Hp; now apply Hsub.
Qed.

(** Every regular file of the source is in the result, with its content,
    when along its path the two trees do not disagree on what is a file and
    what is a directory. *)
Lemma copytree_adds (src dst : dir) (p : list string) (data : string) :
  well_formed (Dir src) = true ->
  file_at p src = Some data ->
  kinds_agree p src dst ->
  file_at p (fst (copytree src dst)) = Some data.
Proof.
  intros Hwf. unfold copytree. apply copy_entries_adds_from; [|exact Hwf].
  apply Forall_forall. intros [n y] _ Hy. now apply copy_entry_adds.
Qed.

Lemma copy_entries_clash (n f : string) (d : dir) (es : dir) :
  forall acc,
    lookup n es = Some (Dir d) ->
    lookup n acc = Some (File f) ->
    snd (copy_entries es acc) = false.
Proof.
  induction es as [|[k y] es IH]; intros acc Hes Hacc; [discriminate Hes|].
  cbn [lookup] in Hes. cbn [copy_entries snd].
  destruct (String.eqb n k) eqn:E.
  - apply String.eqb_eq in E; subst k. inversion Hes; subst y.
    rewrite copy_entry_dir, Hacc. reflexivity.
  - rewrite (IH (fst (copy_entry k y acc)) Hes).
    + apply andb_false_r.
    + now rewrite copy_entry_other.
Qed.

(** ** The orchestrator *)

Section Run.

Context {Ext : Type}.
Variable command : list string -> Ext -> FS -> Ext * FS * Z.

Lemma bind_Ok {A B : Type} (m : M Ext A) (k : A -> M Ext B) w a w1 :
  m w = Ok a w1 -> bind m k w = k a w1.
Proof. unfold bind. now intros ->. Qed.

Lemma bind_Ok_inv {A B : Type} (m : M Ext A) (k : A -> M Ext B) w b w' :
  bind m k w = Ok b w' -> exists a w1, m w = Ok a w1 /\ k a w1 = Ok b w'.
Proof.
  unfold bind. destruct (m w) as [a w1| |]; try discriminate.
  intros H. now exists a, w1.
Qed.

Lemma bind_assoc {A B C : Type} (m : M Ext A) (k : A -> M Ext B) (h : B -> M Ext C) w :
  bind (bind m k) h w = bind m (fun a => bind (k a) h) w.
Proof. unfold bind. now destruct (m w). Qed.

(** Run the statement at the head of a sequence whose result is known. *)
Ltac run H := rewrite ?bind_assoc; rewrite (bind_Ok _ _ _ _ _ H).

Lemma bind_ext {A B : Type} (m m' : M Ext A) (k : A -> M Ext B) w :
  (forall w, m w = m' w) -> bind m k w = bind m' k w.
Proof. intros H. unfold bind. now rewrite H. Qed.

Lemma for_versions_app use_yarn (xs ys : list string) w :
  for_versions command use_yarn (xs ++ ys)%list w
  = (for_versions command use_yarn xs ;; for_versions command use_yarn ys) w.
Proof.
  revert w. induction xs as [|x xs IH]; intros w; [reflexivity|].
  cbn [for_versions app]. unfold bind.
  destruct (build_version command use_yarn x w); [|reflexivity|reflexivity].
  rewrite IH. reflexivity.
Qed.

Lemma move_output_missing (w : World Ext) :
  build (fs w) = None -> move_output w = SysExit not_built w.
Proof.
  intros H. unfold move_output, bind, os_path_isdir, get_dir. now rewrite H.
Qed.

(** The run up to the moment the build command of [v] has returned. *)
Lemma main_until_built versions skip_install use_yarn before v after w0 w1 w2 :
  sorted versions = (before ++ v :: after)%list ->
  (install command skip_install use_yarn ;;
   shutil_rmtree build_dir true ;;
   for_versions command use_yarn before) w0 = Ok tt w1 ->
  (print (announce v) ;;
   redirect_to_version v ;;
   set_buildVersion v ;;
   build_the_docs command use_yarn) w1 = Ok tt w2 ->
  main command versions skip_install use_yarn w0
  = (move_output ;;
     restore_redirects v ;;
     for_versions command use_yarn after ;;
     shutil_rmtree build_dir false ;;
     shutil_move temp_dir build_dir) w2.
Proof.
  intros Hsorted Hbefore Hbuild.
  apply bind_Ok_inv in Hbefore as ([] & wa & Hinstall & Hbefore).
  apply bind_Ok_inv in Hbefore as ([] & wb & Hrm & Hbefore).
  apply bind_Ok_inv in Hbuild as ([] & wc & Hprint & Hbuild).
  apply bind_Ok_inv in Hbuild as ([] & wd & Hredirect & Hbuild).
  apply bind_Ok_inv in Hbuild as ([] & we & Hset & Hbuild).
  unfold main, build_docs. rewrite Hsorted.
  run Hinstall. run Hrm.
  rewrite (bind_ext _ _ _ _ (for_versions_app use_yarn before (v :: after))).
  run Hbefore.
  cbn [for_versions]. unfold build_version, announce in *.
  run Hprint. run Hredirect. run Hset. run Hbuild.
  rewrite ?bind_assoc. reflexivity.
Qed.

(** ** Missing output directory *)

(** C4. If the output directory does not exist when the build command of a
    version returns, the process ends at once through [sys.exit] with the
    message [not_built]: its exit status is 1, and the final world (file
    system, trace of commands and printed lines) is the world the build
    command left, so no later rewrite, build or copy has taken place. *)
Theorem missing_output_is_fatal
  versions skip_install use_yarn before v after w0 w1 w2 :
  sorted versions = (before ++ v :: after)%list ->
  (install command skip_install use_yarn ;;
   shutil_rmtree build_dir true ;;
   for_versions command use_yarn before) w0 = Ok tt w1 ->
  (print (announce v) ;;
   redirect_to_version v ;;
   set_buildVersion v ;;
   build_the_docs command use_yarn) w1 = Ok tt w2 ->
  build (fs w2) = None ->
  main command versions skip_install use_yarn w0 = SysExit not_built w2 /\
  exit_status (main command versions skip_install use_yarn w0) = 1%Z /\
  trace_of (main command versions skip_install use_yarn w0) = trace w2.
Proof.
  intros Hsorted Hbefore Hbuild Hmissing.
  assert (E : main command versions skip_install use_yarn w0 = SysExit not_built w2).
  { rewrite (main_until_built _ _ _ _ _ _ _ _ _ Hsorted Hbefore Hbuild).
    unfold bind. now rewrite move_output_missing. }
  rewrite E. auto.
Qed.

(** ** What each block changes *)

Lemma print_inv line (a : unit) (w w' : World Ext) :
  print line w = Ok a w' ->
  fs w' = fs w /\ ext w' = ext w /\ trace w' = (trace w ++ [Print line])%list.
Proof. unfold print. intros H. inversion H. auto. Qed.

Lemma redirect_to_version_inv v (a : unit) (w w' : World Ext) :
  redirect_to_version v w = Ok a w' ->
  redirects (fs w')
  = (if String.eqb v "latest" then redirects (fs w)
     else inplace (to_version v) (redirects (fs w))) /\
  config (fs w') = config (fs w) /\
  build (fs w') = build (fs w) /\
  build__temp (fs w') = build__temp (fs w) /\
  ext w' = ext w /\ trace w' = trace w.
Proof.
  unfold redirect_to_version, fileinput_inplace, ret.
  destruct (String.eqb v "latest"); cbn [negb]; intros H;
    inversion H; subst; clear H;
    cbn [fs ext trace on_fs write read redirects config build build__temp];
    auto 10.
Qed.

Lemma restore_redirects_inv v (a : unit) (w w' : World Ext) :
  restore_redirects v w = Ok a w' ->
  redirects (fs w')
  = (if String.eqb v "latest" then redirects (fs w)
     else inplace (to_latest v) (redirects (fs w))) /\
  config (fs w') = config (fs w) /\
  build (fs w') = build (fs w) /\
  build__temp (fs w') = build__temp (fs w) /\
  ext w' = ext w /\ trace w' = trace w.
Proof.
  unfold restore_redirects, fileinput_inplace, ret.
  destruct (String.eqb v "latest"); cbn [negb]; intros H;
    inversion H; subst; clear H;
    cbn [fs ext trace on_fs write read redirects config build build__temp];
    auto 10.
Qed.

Lemma set_buildVersion_inv v (a : unit) (w w' : World Ext) :
  set_buildVersion v w = Ok a w' ->
  exists lines,
    sub_lines (declaration v) (readlines (config (fs w))) = Some lines /\
    config (fs w') = printed lines /\
    redirects (fs w') = redirects (fs w) /\
    build (fs w') = build (fs w) /\
    build__temp (fs w') = build__temp (fs w) /\
    ext w' = ext w /\ trace w' = trace w.
Proof.
  unfold set_buildVersion, fileinput_sub. cbn [read].
  destruct (sub_lines _ _) as [lines|]; [|discriminate].
  intros H. inversion H; subst; clear H. exists lines.
  cbn [fs ext trace on_fs write read redirects config build build__temp].
  auto 10.
Qed.

Lemma build_the_docs_inv use_yarn (a : unit) (w w' : World Ext) :
  build_the_docs command use_yarn w = Ok a w' ->
  fs w' = snd (fst (command (build_argv use_yarn) (ext w) (fs w))) /\
  ext w' = fst (fst (command (build_argv use_yarn) (ext w) (fs w))) /\
  trace w' = (trace w ++ [Run (build_argv use_yarn)])%list.
Proof.
  unfold build_the_docs, build_argv, bind, subprocess_run, ret.
  destruct use_yarn; cbn [negb];
    match goal with |- context [command ?x ?y ?z] =>
      destruct (command x y z) as [[e s] code] end;
    intros H; inversion H; subst; clear H; auto.
Qed.

Lemma move_output_inv (a : unit) (w w' : World Ext) :
  move_output w = Ok a w' ->
  exists out,
    build (fs w) = Some out /\
    snd (copytree out (match build__temp (fs w) with Some d => d | None => [] end))
    = true /\
    build__temp (fs w')
    = Some (fst (copytree out
                   (match build__temp (fs w) with Some d => d | None => [] end))) /\
    build (fs w') = build (fs w) /\
    redirects (fs w') = redirects (fs w) /\
    config (fs w') = config (fs w) /\
    ext w' = ext w /\ trace w' = trace w.
Proof.
  unfold move_output, bind, os_path_isdir, sys_exit, ret.
  cbn [get_dir].
  destruct (build (fs w)) as [out|] eqn:Hb; cbn [negb]; [|discriminate].
  unfold shutil_copytree. cbn [get_dir]. rewrite Hb. cbv beta zeta.
  destruct (snd (copytree out match build__temp (fs w) with
                              | Some d => d
                              | None => []
                              end)) eqn:E; [|discriminate].
  intros H. inversion H; subst; clear H. exists out.
  cbn [fs ext trace on_fs set_dir redirects config build build__temp].
  auto 10.
Qed.

Lemma install_inv skip_install use_yarn (a : unit) (w w' : World Ext) :
  install command skip_install use_yarn w = Ok a w' ->
  if skip_install then fs w' = fs w /\ ext w' = ext w /\ trace w' = trace w
  else
    fs w' = snd (fst (command (install_argv use_yarn) (ext w) (fs w))) /\
    ext w' = fst (fst (command (install_argv use_yarn) (ext w) (fs w))) /\
    trace w'
    = (trace w ++ [Print "Installing Docusaurus..."; Run (install_argv use_yarn)])%list.
Proof.
  unfold install, install_argv, bind, print, subprocess_run, ret, log.
  destruct skip_install; cbn [negb].
  - intros H. inversion H; subst; clear H. auto.
  - destruct use_yarn; cbn [negb]; cbv beta; cbn [fs ext trace];
      match goal with |- context [command ?x ?y ?z] =>
        destruct (command x y z) as [[e s] code] end;
      intros H; inversion H; subst; clear H; cbn [fs ext trace fst snd];
      rewrite <- app_assoc; auto.
Qed.

Lemma shutil_rmtree_inv d ignore (a : unit) (w w' : World Ext) :
  shutil_rmtree d ignore w = Ok a w' ->
  get_dir d (fs w') = None /\
  redirects (fs w') = redirects (fs w) /\
  config (fs w') = config (fs w) /\
  (forall d', d' <> d -> get_dir d' (fs w') = get_dir d' (fs w)) /\
  ext w' = ext w /\ trace w' = trace w.
Proof.
  unfold shutil_rmtree.
  destruct (get_dir d (fs w)) eqn:E.
  - intros H. inversion H; subst; clear H.
    destruct d; cbn [fs ext trace on_fs set_dir get_dir redirects config];
      repeat split; try reflexivity; intros [] Hd; solve [congruence | reflexivity].
  - destruct ignore; [|discriminate]. intros H. inversion H; subst; clear H. auto 10.
Qed.

Lemma shutil_move_inv src dst (a : unit) (w w' : World Ext) :
  shutil_move src dst w = Ok a w' ->
  redirects (fs w') = redirects (fs w) /\
  config (fs w') = config (fs w) /\
  ext w' = ext w /\ trace w' = trace w.
Proof.
  unfold shutil_move.
  destruct (get_dir src (fs w)); [|discriminate].
  destruct (get_dir dst (fs w)) as [d0|].
  - destruct (lookup (basename src) d0); [discriminate|].
    intros H. inversion H; subst; clear H.
    destruct src, dst; cbn; auto.
  - intros H. inversion H; subst; clear H.
    destruct src, dst; cbn; auto.
Qed.

(** C3. When the run ends because the output directory is missing after the
    build of a version [v] other than "latest", the redirect file is left as
    the rewrite for [v] made it (every "/latest/" replaced by "/v/"): the
    final world is the one the build command left, and the restoring loop
    has not run.  The build command itself is taken not to write to the
    redirect file. *)
Theorem abort_leaves_redirects_rewritten
  versions skip_install use_yarn before v after w0 w1 w2 :
  leaves_redirects command ->
  v <> "latest" ->
  sorted versions = (before ++ v :: after)%list ->
  (install command skip_install use_yarn ;;
   shutil_rmtree build_dir true ;;
   for_versions command use_yarn before) w0 = Ok tt w1 ->
  (print (announce v) ;;
   redirect_to_version v ;;
   set_buildVersion v ;;
   build_the_docs command use_yarn) w1 = Ok tt w2 ->
  build (fs w2) = None ->
  main command versions skip_install use_yarn w0 = SysExit not_built w2 /\
  redirects (fs w2)
  = inplace (fun line => str_replace "/latest/" ("/" ++ v ++ "/") line)
            (redirects (fs w1)).
Proof.
  intros Hcmd Hv Hsorted Hbefore Hbuild Hmissing. split.
  - rewrite (main_until_built _ _ _ _ _ _ _ _ _ Hsorted Hbefore Hbuild).
    unfold bind. now rewrite move_output_missing.
  - apply bind_Ok_inv in Hbuild as ([] & wc & Hprint & Hbuild).
    apply bind_Ok_inv in Hbuild as ([] & wd & Hredirect & Hbuild).
    apply bind_Ok_inv in Hbuild as ([] & we & Hset & Hbuild).
    apply print_inv in Hprint as (Hfs & _).
    apply redirect_to_version_inv in Hredirect as (Hr & _).
    apply set_buildVersion_inv in Hset as (lines & _ & _ & Hs & _).
    apply build_the_docs_inv in Hbuild as (Hb & _).
    apply String.eqb_neq in Hv. rewrite Hv in Hr.
    rewrite Hb, Hcmd, Hs, Hr, Hfs. reflexivity.
Qed.

(** ** The round trip of the redirect file *)

(** C9 (amended).  The rewrite for [v] followed by the restoring rewrite
    gives back the redirect file, and leaves the world as it was, when [v]
    holds no slash and no line break (LF, CR) and the file holds no CR and
    no occurrence of "/v/". *)
Theorem redirect_then_restore v (w : World Ext) :
  char_in SLASH v = false ->
  char_in LF v = false ->
  char_in CR v = false ->
  char_in CR (redirects (fs w)) = false ->
  str_in ("/" ++ v ++ "/") (redirects (fs w)) = false ->
  (redirect_to_version v ;; restore_redirects v) w = Ok tt w.
Proof.
  intros Hslash Hlf Hcr Hfile Hin.
  destruct w as [[r c b t] e tr]. cbn [fs redirects] in Hfile, Hin.
  unfold bind, redirect_to_version, restore_redirects, fileinput_inplace, ret.
  destruct (String.eqb v "latest"); cbn [negb]; [reflexivity|].
  unfold on_fs. cbn [fs ext trace read write redirects config build build__temp].
  now rewrite redirects_round_trip.
Qed.

Lemma build_version_redirects use_yarn v (a : unit) (w w' : World Ext) :
  leaves_redirects command ->
  char_in SLASH v = false ->
  char_in LF v = false ->
  char_in CR v = false ->
  char_in CR (redirects (fs w)) = false ->
  (v <> "latest" -> str_in ("/" ++ v ++ "/") (redirects (fs w)) = false) ->
  build_version command use_yarn v w = Ok a w' ->
  redirects (fs w') = redirects (fs w).
Proof.
  intros Hcmd Hslash Hlf Hcr Hfile Hin H. unfold build_version in H.
  apply bind_Ok_inv in H as ([] & wc & Hprint & H).
  apply bind_Ok_inv in H as ([] & wd & Hredirect & H).
  apply bind_Ok_inv in H as ([] & we & Hset & H).
  apply bind_Ok_inv in H as ([] & wf & Hbuild & H).
  apply bind_Ok_inv in H as ([] & wg & Hmove & Hrestore).
  apply print_inv in Hprint as (Hfs & _).
  apply redirect_to_version_inv in Hredirect as (Hr & _).
  apply set_buildVersion_inv in Hset as (lines & _ & _ & Hs & _).
  apply build_the_docs_inv in Hbuild as (Hb & _).
  apply move_output_inv in Hmove as (out & _ & _ & _ & _ & Hm & _).
  apply restore_redirects_inv in Hrestore as (Hback & _).
  pose proof (Hcmd (build_argv use_yarn) (ext we) (fs we)) as Hc.
  rewrite Hback, Hm, Hb, Hc, Hs, Hr, Hfs.
  destruct (String.eqb v "latest") eqn:E; [reflexivity|].
  apply String.eqb_neq in E.
  apply redirects_round_trip; auto.
Qed.

Lemma for_versions_redirects use_yarn versions :
  leaves_redirects command ->
  forall (w w' : World Ext),
    (forall v, In v versions ->
       char_in SLASH v = false /\ char_in LF v = false /\ char_in CR v = false) ->
    char_in CR (redirects (fs w)) = false ->
    (forall v, In v versions -> v <> "latest" ->
       str_in ("/" ++ v ++ "/") (redirects (fs w)) = false) ->
    for_versions command use_yarn versions w = Ok tt w' ->
    redirects (fs w') = redirects (fs w).
Proof.
  intros Hcmd. induction versions as [|v vs IH]; intros w w' Hplain Hfile Hin H.
  - inversion H. reflexivity.
  - cbn [for_versions] in H.
    apply bind_Ok_inv in H as ([] & w1 & Hv & H).
    destruct (Hplain v (or_introl eq_refl)) as (Hslash & Hlf & Hcr).
    assert (E : redirects (fs w1) = redirects (fs w)).
    { eapply build_version_redirects; eauto. intros Hne. apply Hin; [now left|exact Hne]. }
    rewrite <- E. apply IH; try rewrite E; auto.
    + intros u Hu. apply Hplain. now right.
    + intros u Hu. apply Hin. now right.
Qed.

Lemma main_Ok_inv versions skip_install use_yarn (w0 w' : World Ext) :
  main command versions skip_install use_yarn w0 = Ok tt w' ->
  exists wa wb wc wd,
    install command skip_install use_yarn w0 = Ok tt wa /\
    shutil_rmtree build_dir true wa = Ok tt wb /\
    for_versions command use_yarn (sorted versions) wb = Ok tt wc /\
    shutil_rmtree build_dir false wc = Ok tt wd /\
    shutil_move temp_dir build_dir wd = Ok tt w'.
Proof.
  unfold main, build_docs. intros H.
  apply bind_Ok_inv in H as ([] & wa & Hinstall & H).
  apply bind_Ok_inv in H as ([] & wb & Hrm & H).
  apply bind_Ok_inv in H as ([] & wc & Hfor & H).
  apply bind_Ok_inv in H as ([] & wd & Hrm' & H).
  now exists wa, wb, wc, wd.
Qed.

Lemma setup_redirects skip_install use_yarn (wa wb w0 : World Ext) :
  leaves_redirects command ->
  install command skip_install use_yarn w0 = Ok tt wa ->
  shutil_rmtree build_dir true wa = Ok tt wb ->
  redirects (fs wb) = redirects (fs w0).
Proof.
  intros Hcmd Hinstall Hrm.
  apply shutil_rmtree_inv in Hrm as (_ & Hr & _). rewrite Hr.
  apply install_inv in Hinstall. destruct skip_install.
  - destruct Hinstall as (-> & _). reflexivity.
  - destruct Hinstall as (-> & _). apply Hcmd.
Qed.

(** C2 (amended).  Take a run whose commands do not write to the redirect
    file, whose versions hold no slash and no line break, and whose redirect
    file holds at the start no CR and no occurrence of "/v/" for any version
    [v] other than "latest".  Then for every version [v] the run processes,
    the redirect file after the restoring step of [v] is what it was before
    the rewriting step of [v]; and after a run that returns the file is what
    it was before the run. *)
Theorem redirects_restored versions skip_install use_yarn (w0 : World Ext) :
  leaves_redirects command ->
  (forall v, In v versions ->
     char_in SLASH v = false /\ char_in LF v = false /\ char_in CR v = false) ->
  char_in CR (redirects (fs w0)) = false ->
  (forall v, In v versions -> v <> "latest" ->
     str_in ("/" ++ v ++ "/") (redirects (fs w0)) = false) ->
  (forall before v after w1 w2,
     sorted versions = (before ++ v :: after)%list ->
     (install command skip_install use_yarn ;;
      shutil_rmtree build_dir true ;;
      for_versions command use_yarn before) w0 = Ok tt w1 ->
     build_version command use_yarn v w1 = Ok tt w2 ->
     redirects (fs w2) = redirects (fs w1)) /\
  (forall w',
     main command versions skip_install use_yarn w0 = Ok tt w' ->
     redirects (fs w') = redirects (fs w0)).
Proof.
  intros Hcmd Hplain Hfile Hin. split.
  - intros before v after w1 w2 Hsorted Hbefore Hv.
    apply bind_Ok_inv in Hbefore as ([] & wa & Hinstall & Hbefore).
    apply bind_Ok_inv in Hbefore as ([] & wb & Hrm & Hbefore).
    pose proof (setup_redirects _ _ _ _ _ Hcmd Hinstall Hrm) as E0.
    assert (Hsub : forall u, In u (before ++ v :: after)%list -> In u versions)
      by (intros u Hu; apply sorted_In; now rewrite Hsorted).
    assert (E1 : redirects (fs w1) = redirects (fs wb)).
    { apply (for_versions_redirects use_yarn before Hcmd); rewrite ?E0; auto.
      - intros u Hu. apply Hplain, Hsub, in_or_app. now left.
      - intros u Hu. apply Hin, Hsub, in_or_app. now left. }
    assert (Hv_in : In v versions) by (apply Hsub, in_or_app; right; now left).
    destruct (Hplain v Hv_in) as (Hslash & Hlf & Hcr).
    eapply build_version_redirects; eauto; rewrite E1, E0; auto.
  - intros w' H.
    apply main_Ok_inv in H as (wa & wb & wc & wd & Hinstall & Hrm & Hfor & Hrm' & Hmove).
    pose proof (setup_redirects _ _ _ _ _ Hcmd Hinstall Hrm) as E0.
    apply shutil_move_inv in Hmove as (-> & _).
    apply shutil_rmtree_inv in Hrm' as (_ & -> & _).
    rewrite <- E0.
    apply (for_versions_redirects use_yarn (sorted versions) Hcmd); rewrite ?E0; auto.
    + intros u Hu. apply Hplain. now apply sorted_In.
    + intros u Hu. apply Hin. now apply sorted_In.
Qed.

(** ** Traces *)

Lemma redirect_to_version_total v (w : World Ext) :
  exists w', redirect_to_version v w = Ok tt w' /\ trace w' = trace w.
Proof.
  unfold redirect_to_version, fileinput_inplace, ret.
  destruct (String.eqb v "latest"); cbn [negb]; eexists; split; reflexivity.
Qed.

Lemma restore_redirects_total v (w : World Ext) :
  exists w', restore_redirects v w = Ok tt w' /\ trace w' = trace w.
Proof.
  unfold restore_redirects, fileinput_inplace, ret.
  destruct (String.eqb v "latest"); cbn [negb]; eexists; split; reflexivity.
Qed.

Lemma set_buildVersion_cases v (w : World Ext) :
  (exists w', set_buildVersion v w = Ok tt w' /\ trace w' = trace w) \/
  set_buildVersion v w = Raised ReError (trace w).
Proof.
  unfold set_buildVersion, fileinput_sub.
  destruct (sub_lines _ _); [left; eexists; split; reflexivity | now right].
Qed.

Lemma build_the_docs_total use_yarn (w : World Ext) :
  exists w',
    build_the_docs command use_yarn w = Ok tt w' /\
    trace w' = (trace w ++ [Run (build_argv use_yarn)])%list.
Proof.
  unfold build_the_docs, build_argv, bind, subprocess_run, ret.
  destruct use_yarn; cbn [negb];
    match goal with |- context [command ?a ?b ?c] =>
      destruct (command a b c) as [[e s] code] end;
    eexists; split; reflexivity.
Qed.

Lemma move_output_trace (w : World Ext) : trace_of (move_output w) = trace w.
Proof.
  unfold move_output, bind, os_path_isdir, sys_exit, ret. cbn [get_dir].
  destruct (build (fs w)) as [out|] eqn:Hb; cbn [negb]; [|reflexivity].
  unfold shutil_copytree. cbn [get_dir]. rewrite Hb. cbv beta zeta.
  now destruct (snd (copytree out _)).
Qed.

Lemma build_version_trace use_yarn v (w : World Ext) :
  (trace_of (build_version command use_yarn v w)
   = (trace w ++ [Print (announce v)])%list /\
   forall w', build_version command use_yarn v w <> Ok tt w') \/
  trace_of (build_version command use_yarn v w)
  = (trace w ++ [Print (announce v); Run (build_argv use_yarn)])%list.
Proof.
  unfold build_version. fold (announce v).
  assert (Hprint : print (announce v) w = Ok tt (log (Print (announce v)) w))
    by reflexivity.
  run Hprint.
  destruct (redirect_to_version_total v (log (Print (announce v)) w))
    as (w1 & H1 & T1).
  run H1.
  destruct (set_buildVersion_cases v w1) as [(w2 & H2 & T2) | H2].
  - right. run H2.
    destruct (build_the_docs_total use_yarn w2) as (w3 & H3 & T3).
    run H3.
    assert (T : trace w3
                = (trace w ++ [Print (announce v); Run (build_argv use_yarn)])%list).
    { rewrite T3, T2, T1. cbn [log trace]. now rewrite <- app_assoc. }
    pose proof (move_output_trace w3) as Hm.
    unfold bind. destruct (move_output w3) as [[] w4| |]; cbn [trace_of] in Hm |- *;
      try congruence.
    destruct (restore_redirects_total v w4) as (w5 & H5 & T5).
    rewrite H5. cbn [trace_of]. congruence.
  - left. unfold bind. rewrite H2. split; [|intros w' H; discriminate H].
    cbn [trace_of]. now rewrite T1.
Qed.

Lemma output_app (s t : list event) : output (s ++ t) = (output s ++ output t)%list.
Proof.
  induction s as [|[line|argv] s IH]; cbn [output app]; [reflexivity| |exact IH].
  now rewrite IH.
Qed.

Lemma commands_app (s t : list event) :
  commands (s ++ t) = (commands s ++ commands t)%list.
Proof.
  induction s as [|[line|argv] s IH]; cbn [commands app]; [reflexivity|exact IH|].
  now rewrite IH.
Qed.

(** The versions whose processing has started are an initial segment of the
    list, announced in order. *)
Lemma for_versions_output use_yarn versions (w : World Ext) :
  exists started rest,
    versions = (started ++ rest)%list /\
    output (trace_of (for_versions command use_yarn versions w))
    = (output (trace w) ++ map announce started)%list /\
    (forall w', for_versions command use_yarn versions w = Ok tt w' -> rest = []).
Proof.
  revert w. induction versions as [|v vs IH]; intros w.
  - exists [], []. cbn. rewrite app_nil_r. auto.
  - cbn [for_versions].
    assert (Hout : output (trace_of (build_version command use_yarn v w))
                   = (output (trace w) ++ [announce v])%list).
    { destruct (build_version_trace use_yarn v w) as [[-> _] | ->];
        now rewrite output_app. }
    unfold bind. destruct (build_version command use_yarn v w) as [[] w1|msg w1|e t].
    + destruct (IH w1) as (started & rest & -> & Ho & Hok).
      exists (v :: started), rest. split; [reflexivity|]. split; [|exact Hok].
      rewrite Ho. cbn [trace_of] in Hout. rewrite Hout.
      now rewrite <- app_assoc.
    + exists [v], vs. repeat split; [exact Hout | intros w' H; discriminate H].
    + exists [v], vs. repeat split; [exact Hout | intros w' H; discriminate H].
Qed.

(** One build command per version, as long as the run goes on. *)
Lemma for_versions_commands use_yarn versions (w : World Ext) :
  exists n,
    n <= List.length versions /\
    commands (trace_of (for_versions command use_yarn versions w))
    = (commands (trace w) ++ repeat (build_argv use_yarn) n)%list /\
    (forall w', for_versions command use_yarn versions w = Ok tt w' ->
                n = List.length versions).
Proof.
  revert w. induction versions as [|v vs IH]; intros w.
  - exists 0. cbn. rewrite app_nil_r. auto.
  - cbn [for_versions].
    assert (Hc : (commands (trace_of (build_version command use_yarn v w))
                  = commands (trace w) /\
                  forall w', build_version command use_yarn v w <> Ok tt w') \/
                 commands (trace_of (build_version command use_yarn v w))
                 = (commands (trace w) ++ [build_argv use_yarn])%list).
    { destruct (build_version_trace use_yarn v w) as [[-> Hno] | ->];
        rewrite commands_app; cbn [commands]; [left|right; reflexivity].
      split; [apply app_nil_r|exact Hno]. }
    unfold bind. destruct (build_version command use_yarn v w) as [[] w1|msg w1|e t].
    + destruct Hc as [[_ Hno] | Hc]; [now destruct (Hno w1)|].
      destruct (IH w1) as (n & Hn & Hcs & Hok).
      exists (S n). cbn [List.length repeat]. split; [lia|]. split.
      * rewrite Hcs. cbn [trace_of] in Hc. rewrite Hc. now rewrite <- app_assoc.
      * intros w' H. now rewrite (Hok w' H).
    + destruct Hc as [[Hc _] | Hc].
      * exists 0. cbn [List.length repeat]. split; [lia|].
        split; [now rewrite app_nil_r | intros w' H; discriminate H].
      * exists 1. cbn [List.length repeat]. split; [lia|].
        split; [exact Hc | intros w' H; discriminate H].
    + destruct Hc as [[Hc _] | Hc].
      * exists 0. cbn [List.length repeat]. split; [lia|].
        split; [now rewrite app_nil_r | intros w' H; discriminate H].
      * exists 1. cbn [List.length repeat]. split; [lia|].
        split; [exact Hc | intros w' H; discriminate H].
Qed.

Lemma install_total (skip_install use_yarn : bool) (w : World Ext) :
  exists w',
    install command skip_install use_yarn w = Ok tt w' /\
    trace w'
    = (trace w ++
       if skip_install then []
       else [Print "Installing Docusaurus..."; Run (install_argv use_yarn)])%list.
Proof.
  unfold install, install_argv, bind, print, subprocess_run, ret, log.
  destruct skip_install; cbn [negb].
  - eexists. split; [reflexivity|]. now rewrite app_nil_r.
  - destruct use_yarn; cbn [negb]; cbv beta; cbn [fs ext trace];
      match goal with |- context [command ?x ?y ?z] =>
        destruct (command x y z) as [[e s] code] end;
      eexists; (split; [reflexivity|]); cbn [trace]; now rewrite <- app_assoc.
Qed.

Lemma promote_trace (w : World Ext) :
  trace_of ((shutil_rmtree build_dir false ;; shutil_move temp_dir build_dir) w)
  = trace w.
Proof.
  unfold bind, shutil_rmtree, shutil_move. cbn [get_dir].
  destruct (build (fs w)); [|reflexivity].
  cbn [on_fs fs set_dir build build__temp].
  destruct (build__temp (fs w)); reflexivity.
Qed.

(** The trace of [main] is the trace of its loop, started after the install
    step. *)
Lemma main_trace versions (skip_install use_yarn : bool) (w0 : World Ext) :
  exists wb,
    trace wb
    = (trace w0 ++
       if skip_install then []
       else [Print "Installing Docusaurus..."; Run (install_argv use_yarn)])%list /\
    trace_of (main command versions skip_install use_yarn w0)
    = trace_of (for_versions command use_yarn (sorted versions) wb) /\
    (forall w', main command versions skip_install use_yarn w0 = Ok tt w' ->
                exists wc, for_versions command use_yarn (sorted versions) wb = Ok tt wc).
Proof.
  destruct (install_total skip_install use_yarn w0) as (wa & Hinstall & Ta).
  assert (Hrm : exists wb, shutil_rmtree build_dir true wa = Ok tt wb /\
                           trace wb = trace wa).
  { unfold shutil_rmtree. destruct (get_dir build_dir (fs wa));
      eexists; split; reflexivity. }
  destruct Hrm as (wb & Hrm & Tb).
  exists wb. split; [congruence|].
  unfold main, build_docs. run Hinstall. run Hrm.
  pose proof promote_trace as Hp.
  unfold bind at 1 3.
  destruct (for_versions command use_yarn (sorted versions) wb) as [[] wc|msg wc|e t].
  - split; [apply Hp|]. intros w' _. now exists wc.
  - split; [reflexivity|]. intros w' H. discriminate H.
  - split; [reflexivity|]. intros w' H. discriminate H.
Qed.

(** ** The install step *)

(** C10. With [skip_install] no install command is run, for either
    toolchain: the commands of the run are build commands only.  Without it
    the commands of the run are one install command, that of the selected
    toolchain, followed by build commands only. *)
Theorem install_runs_once_or_never versions skip_install use_yarn (w0 : World Ext) :
  exists new n,
    commands (trace_of (main command versions skip_install use_yarn w0))
    = (commands (trace w0) ++ new)%list /\
    new = ((if skip_install then [] else [install_argv use_yarn])
           ++ repeat (build_argv use_yarn) n)%list /\
    n <= List.length versions /\
    List.length (filter is_install new) = (if skip_install then 0 else 1) /\
    (if skip_install then forall argv, In argv new -> argv = build_argv use_yarn
     else hd_error new = Some (install_argv use_yarn)).
Proof.
  destruct (main_trace versions skip_install use_yarn w0) as (wb & Tb & -> & _).
  destruct (for_versions_commands use_yarn (sorted versions) wb)
    as (n & Hn & -> & _).
  exists ((if skip_install then [] else [install_argv use_yarn])
          ++ repeat (build_argv use_yarn) n)%list, n.
  assert (Hbuilds : filter is_install (repeat (build_argv use_yarn) n) = []).
  { induction n as [|n IH]; [reflexivity|].
    cbn [repeat filter]. rewrite IH by lia. now destruct use_yarn. }
  split; [|split; [reflexivity|split; [|split]]].
  - rewrite Tb, commands_app, <- app_assoc. f_equal. f_equal.
    now destruct skip_install.
  - rewrite (Permutation_length (sorted_perm versions)). exact Hn.
  - rewrite filter_app, Hbuilds, app_nil_r.
    destruct skip_install; [reflexivity|]. now destruct use_yarn.
  - destruct skip_install.
    + intros argv Hin. cbn [app] in Hin. now apply repeat_spec in Hin.
    + reflexivity.
Qed.

(** ** The configuration file: the last write wins *)

Lemma plain_spec (v : string) :
  plain v = true ->
  char_in LF v = false /\ char_in CR v = false /\ char_in BACKSLASH v = false.
Proof.
  unfold plain. intros H.
  apply andb_true_iff in H as [H Hb]. apply andb_true_iff in H as [Hl Hc].
  now rewrite negb_true_iff in Hl, Hc, Hb.
Qed.

Lemma set_buildVersion_plain v (a : unit) (w w' : World Ext) :
  char_in BACKSLASH v = false ->
  set_buildVersion v w = Ok a w' ->
  config (fs w') = config_for v (config (fs w)).
Proof.
  intros Hv H. apply set_buildVersion_inv in H as (lines & Hsub & -> & _).
  rewrite sub_lines_plain in Hsub by (now apply declaration_free).
  now inversion Hsub.
Qed.

Lemma build_version_config use_yarn v (a : unit) (w w' : World Ext) :
  leaves_config command ->
  char_in BACKSLASH v = false ->
  build_version command use_yarn v w = Ok a w' ->
  config (fs w') = config_for v (config (fs w)).
Proof.
  intros Hcmd Hv H. unfold build_version in H.
  apply bind_Ok_inv in H as ([] & wc & Hprint & H).
  apply bind_Ok_inv in H as ([] & wd & Hredirect & H).
  apply bind_Ok_inv in H as ([] & we & Hset & H).
  apply bind_Ok_inv in H as ([] & wf & Hbuild & H).
  apply bind_Ok_inv in H as ([] & wg & Hmove & Hrestore).
  apply print_inv in Hprint as (Hfs & _).
  apply redirect_to_version_inv in Hredirect as (_ & Hr & _).
  apply (set_buildVersion_plain _ _ _ _ Hv) in Hset.
  apply build_the_docs_inv in Hbuild as (Hb & _).
  apply move_output_inv in Hmove as (out & _ & _ & _ & _ & _ & Hm & _).
  apply restore_redirects_inv in Hrestore as (_ & Hback & _).
  pose proof (Hcmd (build_argv use_yarn) (ext we) (fs we)) as Hc.
  rewrite Hback, Hm, Hb, Hc, Hset, Hr, Hfs. reflexivity.
Qed.

Lemma for_versions_config use_yarn versions :
  leaves_config command ->
  (forall v, In v versions -> plain v = true) ->
  versions <> [] ->
  forall (w w' : World Ext),
    for_versions command use_yarn versions w = Ok tt w' ->
    config (fs w') = config_for (last versions EmptyString) (config (fs w)).
Proof.
  intros Hcmd. induction versions as [|v vs IH]; intros Hplain Hne w w' H;
    [congruence|].
  cbn [for_versions] in H.
  apply bind_Ok_inv in H as ([] & w1 & Hv & H).
  destruct (plain_spec v (Hplain v (or_introl eq_refl))) as (Hlf & Hcr & Hbs).
  apply (build_version_config _ _ _ _ _ Hcmd Hbs) in Hv.
  destruct vs as [|v2 vs].
  - inversion H; subst. exact Hv.
  - change (last (v :: v2 :: vs) EmptyString) with (last (v2 :: vs) EmptyString).
    rewrite (IH (fun u Hu => Hplain u (or_intror Hu)) ltac:(discriminate) w1 w' H).
    rewrite Hv. now apply config_for_twice.
Qed.

(** [main] does not return on an empty list of versions: nothing has built
    the directory that [shutil.rmtree] is to remove. *)
Lemma main_Ok_nonempty versions skip_install use_yarn (w0 w' : World Ext) :
  main command versions skip_install use_yarn w0 = Ok tt w' -> versions <> [].
Proof.
  intros H ->.
  apply main_Ok_inv in H as (wa & wb & wc & wd & _ & Hrm & Hfor & Hrm' & _).
  cbn in Hfor. inversion Hfor; subst.
  apply shutil_rmtree_inv in Hrm as (Hnone & _).
  unfold shutil_rmtree in Hrm'. now rewrite Hnone in Hrm'.
Qed.

Lemma last_In (l : list string) (d : string) : l <> [] -> In (last l d) l.
Proof.
  induction l as [|x l IH]; [congruence|]. intros _.
  destruct l as [|y l]; [now left|].
  right. apply IH. discriminate.
Qed.

(** X19.  For every list of versions: [sorted] gives the versions in
    ascending order of [str] (a permutation of the input, every element below
    the ones after it), and the versions are taken up in that order (the
    lines announcing them are those of an initial segment of the sorted
    list, the whole list when [main] returns).  When moreover the commands
    do not write to the configuration file and no version holds a backslash
    or a line break, then after a run that returns, the configuration file
    is what one rewrite for the greatest version makes of the initial file
    ([config_for]): the initial file as read in text mode, CR LF and CR
    turned into LF, with every line that starts with [var buildVersion]
    replaced, up to its line end, by the declaration of the greatest
    version.  Nothing restores the file, and the last write wins. *)
Theorem versions_in_order_last_write_wins
  versions (skip_install use_yarn : bool) (w0 : World Ext) :
  (Permutation versions (sorted versions) /\ StronglySorted le (sorted versions)) /\
  (exists started rest,
     sorted versions = (started ++ rest)%list /\
     output (trace_of (main command versions skip_install use_yarn w0))
     = (output (trace w0)
        ++ (if skip_install then [] else ["Installing Docusaurus..."])
        ++ map announce started)%list /\
     (forall w', main command versions skip_install use_yarn w0 = Ok tt w' ->
                 rest = [])) /\
  (leaves_config command ->
   (forall v, In v versions -> plain v = true) ->
   forall w',
     main command versions skip_install use_yarn w0 = Ok tt w' ->
     let greatest := last (sorted versions) EmptyString in
     In greatest versions /\
     (forall u, In u versions -> le u greatest) /\
     config (fs w') = config_for greatest (config (fs w0))).
Proof.
  split; [split; [apply sorted_perm | apply sorted_sorted]|]. split.
  - destruct (main_trace versions skip_install use_yarn w0) as (wb & Tb & -> & Hok).
    destruct (for_versions_output use_yarn (sorted versions) wb)
      as (started & rest & Hsplit & Hout & Hrest).
    exists started, rest. split; [exact Hsplit|]. split.
    + rewrite Hout, Tb, output_app, <- app_assoc. f_equal. f_equal.
      now destruct skip_install.
    + intros w' H. destruct (Hok w' H) as (wc & Hc). exact (Hrest wc Hc).
  - intros Hcmd Hplain w' H greatest.
    pose proof (main_Ok_nonempty _ _ _ _ _ H) as Hne.
    assert (Hne' : sorted versions <> []).
    { intros E. apply Hne. apply Permutation_nil.
      rewrite <- E. symmetry. apply sorted_perm. }
    split; [|split].
    + apply sorted_In. now apply last_In.
    + intros u Hu. apply sorted_last; [apply sorted_sorted|now apply sorted_In].
    + apply main_Ok_inv in H
        as (wa & wb & wc & wd & Hinstall & Hrm & Hfor & Hrm' & Hmove).
      apply shutil_move_inv in Hmove as (_ & -> & _).
      apply shutil_rmtree_inv in Hrm' as (_ & _ & -> & _).
      rewrite (for_versions_config use_yarn (sorted versions) Hcmd
                 (fun v Hv => Hplain v (proj1 (sorted_In v versions) Hv))
                 Hne' wb wc Hfor).
      f_equal.
      apply shutil_rmtree_inv in Hrm as (_ & _ & -> & _).
      apply install_inv in Hinstall. destruct skip_install.
      * now destruct Hinstall as (-> & _).
      * destruct Hinstall as (-> & _). apply Hcmd.
Qed.

(** ** The rewrite of the configuration file *)

Lemma set_buildVersion_literal v (w : World Ext) :
  char_in BACKSLASH v = false ->
  set_buildVersion v w
  = Ok tt (on_fs (write docusaurus_config_js (config_for v (config (fs w)))) w).
Proof.
  intros Hv. unfold set_buildVersion, fileinput_sub. cbn [read].
  rewrite sub_lines_plain by (now apply declaration_free). reflexivity.
Qed.

(** C6 (amended).  Let the configuration file hold no CR and exactly one
    line that starts with [var buildVersion], and let [v] hold no
    backslash.  The rewrite for [v] then yields the file with that line
    replaced, up to its line terminator, by the declaration of [v]; the
    lines before and after it are the same, and nothing else in the world
    changes. *)
Theorem set_buildVersion_one_line v (w : World Ext) :
  char_in BACKSLASH v = false ->
  char_in CR (config (fs w)) = false ->
  List.length (filter (startswith buildVersion_prefix) (readlines (config (fs w)))) = 1 ->
  exists before body eol after,
    readlines (config (fs w)) = (before ++ (body ++ eol)%string :: after)%list /\
    config (fs w) = printed before ++ (body ++ eol) ++ printed after /\
    startswith buildVersion_prefix body = true /\
    char_in LF body = false /\
    (eol = EmptyString \/ eol = String LF EmptyString) /\
    filter (startswith buildVersion_prefix) before = [] /\
    filter (startswith buildVersion_prefix) after = [] /\
    set_buildVersion v w
    = Ok tt (on_fs (write docusaurus_config_js
                      (printed before ++ (declaration v ++ eol) ++ printed after))
                   w).
Proof.
  intros Hv Hcr Hone.
  destruct (filter_one _ _ Hone) as (before & line & after & Hsplit & Hline & Hb & Ha).
  assert (Hin : In line (splitlines (universal_newlines (config (fs w))))).
  { fold (readlines (config (fs w))). rewrite Hsplit. apply in_or_app. right. now left. }
  destruct (splitlines_shape _ _ Hin) as (body & eol & -> & Hbody & Heol).
  assert (Hstart : startswith buildVersion_prefix body = true).
  { destruct Heol as [-> | ->].
    - now rewrite append_nil_r in Hline.
    - now rewrite startswith_line in Hline by reflexivity. }
  assert (Hset : set_line (declaration v) (body ++ eol) = declaration v ++ eol).
  { destruct Heol as [-> | ->].
    - rewrite !append_nil_r. rewrite set_line_body by exact Hbody.
      now rewrite Hstart.
    - rewrite set_line_line by exact Hbody. now rewrite Hstart. }
  exists before, body, eol, after.
  split; [exact Hsplit|]. split.
  { rewrite <- (printed_readlines _ Hcr) at 1. rewrite Hsplit, printed_app.
    cbn [printed]. reflexivity. }
  repeat (split; [assumption|]).
  rewrite set_buildVersion_literal by exact Hv.
  unfold config_for. rewrite Hsplit, map_app. cbn [map].
  rewrite !map_set_line_others by assumption.
  rewrite Hset, printed_app. cbn [printed]. reflexivity.
Qed.

(** C7 (amended).  For a version without line break and without backslash,
    the rewrite of the configuration file done twice gives what it gives
    done once, whatever the file holds. *)
Theorem set_buildVersion_idempotent v (w : World Ext) :
  plain v = true ->
  (set_buildVersion v ;; set_buildVersion v) w = set_buildVersion v w.
Proof.
  intros Hplain. destruct (plain_spec v Hplain) as (Hlf & Hcr & Hbs).
  unfold bind. rewrite (set_buildVersion_literal v w) by exact Hbs.
  cbv beta iota. rewrite set_buildVersion_literal by exact Hbs.
  destruct w as [[r c b t] e tr].
  unfold on_fs. cbn [fs ext trace write redirects config build build__temp].
  now rewrite config_for_twice.
Qed.

(** ** The merge of the output into the staging directory *)

(** C8. When the merge-copy of a version returns, every regular file the
    staging directory held is still a regular file of the staging directory:
    nothing is deleted.  For an output directory that lists each name once,
    a staging file keeps its content when the output has no regular file at
    its path (nor at an initial segment of it), and a staging file that the
    output has too, at the same path, gets the content of the output. *)
Theorem merge_copy_keeps_staging (w w' : World Ext) out :
  move_output w = Ok tt w' ->
  build (fs w) = Some out ->
  well_formed (Dir out) = true ->
  let staging := match build__temp (fs w) with Some d => d | None => [] end in
  exists staging',
    build__temp (fs w') = Some staging' /\
    (forall p data,
       file_at p staging = Some data ->
       exists data', file_at p staging' = Some data') /\
    (forall p data,
       file_at p staging = Some data ->
       (forall q, on_path q p -> file_at q out = None) ->
       file_at p staging' = Some data) /\
    (forall p data data',
       file_at p out = Some data' ->
       file_at p staging = Some data ->
       file_at p staging' = Some data').
Proof.
  intros H Hout Hwf staging.
  apply move_output_inv in H as (out' & Hout' & _ & Htemp & _).
  rewrite Hout in Hout'. inversion Hout'; subst out'.
  exists (fst (copytree out staging)). split; [exact Htemp|].
  destruct (copytree_spec out staging) as [H0 H12].
  destruct (H12 Hwf) as [H1 H2]. auto.
Qed.

(** ** Further properties of the blocks *)

(** X1. Without versions [main] never returns: after the install step and the
    removal of the old output directory nothing builds a new one, and
    [shutil.rmtree(build_dir)] raises [FileNotFoundError]. *)
Theorem main_without_versions_raises (skip_install use_yarn : bool) (w : World Ext) :
  main command [] skip_install use_yarn w
  = Raised FileNotFoundError
      (trace w ++
       if skip_install then []
       else [Print "Installing Docusaurus..."; Run (install_argv use_yarn)])%list.
Proof.
  destruct (install_total skip_install use_yarn w) as (wa & Hinstall & Ta).
  unfold main, build_docs. cbn [sorted for_versions].
  run Hinstall.
  unfold bind, shutil_rmtree, ret. cbn [get_dir].
  destruct (build (fs wa)) eqn:E;
    cbn [on_fs fs set_dir build trace]; rewrite ?E; now rewrite Ta.
Qed.

(** X2. A configuration file without CR in which no line starts with
    [var buildVersion] is left as it is by the rewrite, for every version
    without backslash: no declaration is added. *)
Theorem set_buildVersion_without_declaration v (w : World Ext) :
  char_in BACKSLASH v = false ->
  char_in CR (config (fs w)) = false ->
  filter (startswith buildVersion_prefix) (readlines (config (fs w))) = [] ->
  set_buildVersion v w = Ok tt w.
Proof.
  intros Hv Hcr Hnone. rewrite set_buildVersion_literal by exact Hv.
  unfold config_for. rewrite map_set_line_others by exact Hnone.
  rewrite printed_readlines by exact Hcr.
  destruct w as [[r c b t] e tr]. reflexivity.
Qed.

(** X4. After the rewrite for a version without backslash and line break,
    the file read again has the lines of the former file, each line that
    started with [var buildVersion] replaced: all of them, not the first
    only.  The number of lines is the same, and every line that now starts
    with [var buildVersion] is the declaration of the version, with or
    without a line end. *)
Theorem set_buildVersion_rewrites_every_declaration v (w w' : World Ext) :
  plain v = true ->
  set_buildVersion v w = Ok tt w' ->
  readlines (config (fs w'))
  = map (set_line (declaration v)) (readlines (config (fs w))) /\
  List.length (readlines (config (fs w'))) = List.length (readlines (config (fs w))) /\
  (forall l, In l (readlines (config (fs w'))) ->
     startswith buildVersion_prefix l = true ->
     l = declaration v \/ l = declaration v ++ NL).
Proof.
  intros Hplain H. destruct (plain_spec v Hplain) as (Hlf & Hcr & Hbs).
  apply (set_buildVersion_plain v tt w w' Hbs) in H.
  assert (Hlines : readlines (config (fs w'))
                   = map (set_line (declaration v)) (readlines (config (fs w)))).
  { rewrite H. unfold config_for, readlines at 1.
    rewrite universal_newlines_id.
    - apply splitlines_set_lines; [now apply declaration_free|discriminate].
    - apply set_lines_no_CR; [now apply declaration_free|].
      apply universal_newlines_no_CR. }
  split; [exact Hlines|]. split; [rewrite Hlines; apply length_map|].
  intros l Hl Hstart. rewrite Hlines in Hl.
  apply in_map_iff in Hl as (l0 & <- & Hl0).
  destruct (splitlines_shape _ _ Hl0) as (body & eol & -> & Hbody & Heol).
  destruct Heol as [-> | ->].
  - rewrite append_nil_r in *. rewrite set_line_body in * by exact Hbody.
    destruct (startswith buildVersion_prefix body) eqn:E; [now left|congruence].
  - rewrite set_line_line in * by exact Hbody.
    destruct (startswith buildVersion_prefix body) eqn:E; [now right|].
    rewrite startswith_line in Hstart by reflexivity. congruence.
Qed.

(** X5. A redirect file without CR that holds no "/latest/" is left as it is
    by the rewrite, for every version. *)
Theorem redirect_to_version_without_latest v (w : World Ext) :
  char_in CR (redirects (fs w)) = false ->
  str_in "/latest/" (redirects (fs w)) = false ->
  redirect_to_version v w = Ok tt w.
Proof.
  intros Hcr Hin. unfold redirect_to_version, fileinput_inplace, ret.
  destruct (negb (String.eqb v "latest")); [|reflexivity].
  change (fun line => str_replace "/latest/" ("/" ++ v ++ "/") line)
    with (str_replace (String SLASH "latest/") ("/" ++ v ++ "/")).
  destruct w as [[r c b t] e tr]. cbn [fs redirects] in Hcr, Hin.
  unfold on_fs. cbn [fs ext trace read write redirects config build build__temp].
  rewrite inplace_replace by reflexivity.
  rewrite universal_newlines_id by exact Hcr.
  now rewrite str_replace_absent.
Qed.

(** X6. The two rewriting loops write LF line ends only.  After the rewrite
    of the redirect file for a version other than "latest" that holds no CR,
    the file holds no CR; after the rewrite of the configuration file for a
    version that holds no CR and no backslash, the file holds no CR.  A file
    with CR LF line ends is converted. *)
Theorem rewritten_files_hold_no_CR v (w w' : World Ext) :
  char_in CR v = false ->
  (v <> "latest" ->
   redirect_to_version v w = Ok tt w' ->
   char_in CR (redirects (fs w')) = false) /\
  (char_in BACKSLASH v = false ->
   set_buildVersion v w = Ok tt w' ->
   char_in CR (config (fs w')) = false).
Proof.
  intros Hcr. split.
  - intros Hv H. apply redirect_to_version_inv in H as (-> & _).
    apply String.eqb_neq in Hv. rewrite Hv.
    unfold to_version.
    change (str_replace "/latest/" ("/" ++ v ++ "/"))
      with (str_replace (String SLASH "latest/") (String SLASH (v ++ "/"))).
    rewrite inplace_replace by reflexivity.
    apply char_in_str_replace; [apply universal_newlines_no_CR|].
    cbn [char_in]. rewrite char_in_append, Hcr. reflexivity.
  - intros Hbs H. apply (set_buildVersion_plain v tt w w' Hbs) in H. rewrite H.
    unfold config_for, readlines.
    apply set_lines_no_CR; [|apply universal_newlines_no_CR].
    now apply declaration_free.
Qed.

(** ** Further properties of the run *)

(** X7. The order in which the versions are given does not matter: two lists
    that are permutations of each other give the same run. *)
Theorem order_of_versions_is_irrelevant
  versions versions' (skip_install use_yarn : bool) (w : World Ext) :
  Permutation versions versions' ->
  main command versions skip_install use_yarn w
  = main command versions' skip_install use_yarn w.
Proof.
  intros Hp. unfold main. now rewrite (sorted_of_permutation _ _ Hp).
Qed.

(** X8. When [main] returns, it has run one build command for each version
    of the list, duplicates included, after the install command if any. *)
Theorem successful_run_builds_every_version
  versions (skip_install use_yarn : bool) (w0 w' : World Ext) :
  main command versions skip_install use_yarn w0 = Ok tt w' ->
  commands (trace w')
  = (commands (trace w0)
     ++ (if skip_install then [] else [install_argv use_yarn])
     ++ repeat (build_argv use_yarn) (List.length versions))%list.
Proof.
  intros H.
  destruct (main_trace versions skip_install use_yarn w0) as (wb & Tb & Ht & Hok).
  destruct (Hok w' H) as (wc & Hc).
  destruct (for_versions_commands use_yarn (sorted versions) wb)
    as (n & _ & Hcs & Hn).
  rewrite (Hn wc Hc) in Hcs.
  rewrite H in Ht. cbn [trace_of] in Ht. rewrite Ht, Hcs, Tb.
  rewrite commands_app, <- app_assoc.
  rewrite <- (Permutation_length (sorted_perm versions)).
  f_equal. f_equal. now destruct skip_install.
Qed.

Lemma bind_SysExit_inv {A B : Type} (m : M Ext A) (k : A -> M Ext B) w msg w' :
  bind m k w = SysExit msg w' ->
  m w = SysExit msg w' \/ exists a w1, m w = Ok a w1 /\ k a w1 = SysExit msg w'.
Proof.
  unfold bind. destruct (m w) as [a w1|msg1 w1|e t] eqn:E; intros H.
  - right. now exists a, w1.
  - left. now inversion H.
  - discriminate H.
Qed.

Lemma move_output_SysExit (w : World Ext) msg w' :
  move_output w = SysExit msg w' ->
  msg = not_built /\ w' = w /\ build (fs w) = None.
Proof.
  unfold move_output, bind, os_path_isdir, sys_exit, ret. cbn [get_dir].
  destruct (build (fs w)) as [out|] eqn:Hb; cbn [negb].
  - unfold shutil_copytree. cbn [get_dir]. rewrite Hb. cbv beta zeta.
    destruct (snd (copytree out _)); discriminate.
  - intros H. inversion H. auto.
Qed.

Lemma build_version_SysExit use_yarn v (w : World Ext) msg w' :
  build_version command use_yarn v w = SysExit msg w' ->
  msg = not_built /\ build (fs w') = None.
Proof.
  unfold build_version. intros H.
  apply bind_SysExit_inv in H as [H | ([] & w1 & _ & H)]; [discriminate H|].
  apply bind_SysExit_inv in H as [H | ([] & w2 & _ & H)].
  { destruct (redirect_to_version_total v w1) as (w2 & E & _). congruence. }
  apply bind_SysExit_inv in H as [H | ([] & w3 & _ & H)].
  { destruct (set_buildVersion_cases v w2) as [(w3 & E & _) | E]; congruence. }
  apply bind_SysExit_inv in H as [H | ([] & w4 & _ & H)].
  { destruct (build_the_docs_total use_yarn w3) as (w4 & E & _). congruence. }
  apply bind_SysExit_inv in H as [H | ([] & w5 & _ & H)].
  - apply move_output_SysExit in H as (-> & -> & Hb). auto.
  - destruct (restore_redirects_total v w5) as (w6 & E & _). congruence.
Qed.

Lemma for_versions_SysExit use_yarn versions (w : World Ext) msg w' :
  for_versions command use_yarn versions w = SysExit msg w' ->
  msg = not_built /\ build (fs w') = None.
Proof.
  revert w. induction versions as [|v vs IH]; intros w H; [discriminate H|].
  cbn [for_versions] in H.
  apply bind_SysExit_inv in H as [H | ([] & w1 & _ & H)].
  - now apply build_version_SysExit in H.
  - now apply IH in H.
Qed.

(** X9. The only way the process ends through [sys.exit] is the check of the
    output directory: the message is the one of that check, and the output
    directory is absent in the world the process leaves. *)
Theorem sys_exit_means_missing_output
  versions (skip_install use_yarn : bool) (w0 : World Ext) msg w' :
  main command versions skip_install use_yarn w0 = SysExit msg w' ->
  msg = not_built /\ build (fs w') = None /\
  exit_status (main command versions skip_install use_yarn w0) = 1%Z.
Proof.
  intros H. rewrite H. cbn [exit_status].
  cut (msg = not_built /\ build (fs w') = None); [tauto|].
  unfold main, build_docs in H.
  apply bind_SysExit_inv in H as [H | ([] & wa & _ & H)].
  { destruct (install_total skip_install use_yarn w0) as (wa & E & _). congruence. }
  apply bind_SysExit_inv in H as [H | ([] & wb & _ & H)].
  { unfold shutil_rmtree in H. destruct (get_dir build_dir (fs wa)); discriminate H. }
  apply bind_SysExit_inv in H as [H | ([] & wc & _ & H)].
  { now apply for_versions_SysExit in H. }
  apply bind_SysExit_inv in H as [H | ([] & wd & _ & H)].
  - unfold shutil_rmtree in H. destruct (get_dir build_dir (fs wc)); discriminate H.
  - unfold shutil_move in H.
    destruct (get_dir temp_dir (fs wd)); [|discriminate H].
    destruct (get_dir build_dir (fs wd)) as [d|]; [|discriminate H].
    destruct (lookup (basename temp_dir) d); discriminate H.
Qed.

(** X10. A build command that never creates an output directory (it leaves
    none where there was none) is found out at the first version, also when
    an output directory of an earlier run was there at the start: [main]
    removes it before the first build.  With at least one version and
    versions without backslash, the run then ends through [sys.exit] after
    one build command.  Only the first build is covered: nothing removes the
    output directory between two versions. *)
Theorem silent_build_failure_is_detected
  versions (skip_install use_yarn : bool) (w0 : World Ext) :
  versions <> [] ->
  (forall v, In v versions -> char_in BACKSLASH v = false) ->
  builds_nothing command (build_argv use_yarn) ->
  exists w',
    main command versions skip_install use_yarn w0 = SysExit not_built w' /\
    commands (trace w')
    = (commands (trace w0)
       ++ (if skip_install then [] else [install_argv use_yarn])
       ++ [build_argv use_yarn])%list.
Proof.
  intros Hne Hplain Hcmd.
  destruct (install_total skip_install use_yarn w0) as (wa & Hinstall & Ta).
  assert (Hrm : exists wb, shutil_rmtree build_dir true wa = Ok tt wb /\
                           trace wb = trace wa /\ build (fs wb) = None).
  { unfold shutil_rmtree. cbn [get_dir]. destruct (build (fs wa)) eqn:E.
    - eexists. split; [reflexivity|]. split; reflexivity.
    - eexists. split; [reflexivity|]. split; [reflexivity|exact E]. }
  destruct Hrm as (wb & Hrm & Tb & Bb).
  destruct (sorted versions) as [|v rest] eqn:Hs.
  { exfalso. apply Hne. apply Permutation_nil. rewrite <- Hs.
    symmetry. apply sorted_perm. }
  assert (Hv : char_in BACKSLASH v = false).
  { apply Hplain. apply sorted_In. rewrite Hs. now left. }
  set (w1 := log (Print (announce v)) wb).
  destruct (redirect_to_version_total v w1) as (w2 & H2 & T2).
  pose proof (redirect_to_version_inv v tt w1 w2 H2) as (_ & _ & B2 & _).
  pose proof (set_buildVersion_literal v w2 Hv) as H3.
  set (w3 := on_fs (write docusaurus_config_js (config_for v (config (fs w2)))) w2) in H3.
  destruct (build_the_docs_total use_yarn w3) as (w4 & H4 & T4).
  pose proof (build_the_docs_inv use_yarn tt w3 w4 H4) as (F4 & _).
  assert (B4 : build (fs w4) = None).
  { rewrite F4. apply Hcmd. unfold w3. cbn. rewrite B2. exact Bb. }
  exists w4. split.
  - rewrite (main_until_built versions skip_install use_yarn [] v rest w0 wb w4).
    + unfold bind. now rewrite move_output_missing.
    + exact Hs.
    + run Hinstall. run Hrm. reflexivity.
    + assert (Hp : print (announce v) wb = Ok tt w1) by reflexivity.
      run Hp. run H2. run H3. exact H4.
  - rewrite T4. unfold w3. cbn [on_fs trace]. rewrite T2. unfold w1.
    cbn [log trace]. rewrite Tb, Ta.
    rewrite !commands_app. cbn [commands]. rewrite app_nil_r, <- app_assoc.
    f_equal. f_equal. now destruct skip_install.
Qed.

(** ** The staging directory over the run *)

Lemma build_version_staging use_yarn v (a : unit) (w w' : World Ext) :
  leaves_staging command ->
  build_version command use_yarn v w = Ok a w' ->
  forall p data,
    file_of p (build__temp (fs w)) = Some data ->
    exists data', file_of p (build__temp (fs w')) = Some data'.
Proof.
  intros Hcmd H p data Hp. unfold build_version in H.
  apply bind_Ok_inv in H as ([] & wc & Hprint & H).
  apply bind_Ok_inv in H as ([] & wd & Hredirect & H).
  apply bind_Ok_inv in H as ([] & we & Hset & H).
  apply bind_Ok_inv in H as ([] & wf & Hbuild & H).
  apply bind_Ok_inv in H as ([] & wg & Hmove & Hrestore).
  apply print_inv in Hprint as (Hfs & _).
  apply redirect_to_version_inv in Hredirect as (_ & _ & _ & Hr & _).
  apply set_buildVersion_inv in Hset as (lines & _ & _ & _ & _ & Hs & _).
  apply build_the_docs_inv in Hbuild as (Hb & _).
  apply move_output_inv in Hmove as (out & _ & _ & Hm & _).
  apply restore_redirects_inv in Hrestore as (_ & _ & _ & Hback & _).
  pose proof (Hcmd (build_argv use_yarn) (ext we) (fs we)) as Hc.
  assert (E : build__temp (fs wf) = build__temp (fs w))
    by (rewrite Hb, Hc, Hs, Hr, Hfs; reflexivity).
  rewrite Hback, Hm, E.
  destruct (build__temp (fs w)) as [d|]; [|discriminate Hp].
  cbn [file_of] in Hp |- *.
  exact (proj1 (copytree_spec out d) p data Hp).
Qed.

Lemma for_versions_staging use_yarn versions :
  leaves_staging command ->
  forall (w w' : World Ext),
    for_versions command use_yarn versions w = Ok tt w' ->
    forall p data,
      file_of p (build__temp (fs w)) = Some data ->
      exists data', file_of p (build__temp (fs w')) = Some data'.
Proof.
  intros Hcmd. induction versions as [|v vs IH]; intros w w' H p data Hp.
  - inversion H; subst. now exists data.
  - cbn [for_versions] in H.
    apply bind_Ok_inv in H as ([] & w1 & Hv & H).
    destruct (build_version_staging _ _ _ _ _ Hcmd Hv p data Hp) as [data1 H1].
    exact (IH w1 w' H p data1 H1).
Qed.

(** The two statements that end [build_docs]. *)
Lemma promote_inv (wc wd w' : World Ext) :
  shutil_rmtree build_dir false wc = Ok tt wd ->
  shutil_move temp_dir build_dir wd = Ok tt w' ->
  build (fs w') = build__temp (fs wc) /\
  build__temp (fs w') = None /\
  exists d, build__temp (fs wc) = Some d.
Proof.
  unfold shutil_rmtree, shutil_move. cbn [get_dir].
  destruct (build (fs wc)); [|discriminate].
  intros H. inversion H; subst; clear H.
  cbn [on_fs fs set_dir build build__temp].
  destruct (build__temp (fs wc)) as [d|]; [|discriminate].
  intros H. inversion H; subst; clear H.
  cbn [on_fs fs set_dir build build__temp]. eauto.
Qed.

(** X11. When [main] returns, its last two statements have renamed the
    staging directory: the output directory is, entry for entry, the staging
    directory as the loop over the versions left it, whatever the last build
    had put in the output directory; no staging directory is left; the two
    files, the rest of the machine and the trace are as the loop left
    them. *)
Theorem successful_run_promotes_staging
  versions (skip_install use_yarn : bool) (w0 w' : World Ext) :
  main command versions skip_install use_yarn w0 = Ok tt w' ->
  exists wc staged,
    (install command skip_install use_yarn ;;
     shutil_rmtree build_dir true ;;
     for_versions command use_yarn (sorted versions)) w0 = Ok tt wc /\
    build__temp (fs wc) = Some staged /\
    w' = mkWorld (mkFS (redirects (fs wc)) (config (fs wc)) (Some staged) None)
                 (ext wc) (trace wc).
Proof.
  intros H.
  apply main_Ok_inv in H as (wa & wb & wc & wd & Hinstall & Hrm & Hfor & Hrm' & Hmove).
  destruct (promote_inv _ _ _ Hrm' Hmove) as (_ & _ & staged & Hstaged).
  exists wc, staged. split; [|split; [exact Hstaged|]].
  - run Hinstall. run Hrm. exact Hfor.
  - unfold shutil_rmtree in Hrm'. cbn [get_dir] in Hrm'.
    destruct (build (fs wc)); [|discriminate Hrm'].
    inversion Hrm'; subst; clear Hrm'.
    unfold shutil_move in Hmove.
    cbn [get_dir on_fs fs set_dir build build__temp] in Hmove.
    rewrite Hstaged in Hmove. inversion Hmove; subst; clear Hmove.
    unfold on_fs.
    cbn [fs ext trace set_dir redirects config build build__temp].
    reflexivity.
Qed.

Lemma setup_staging skip_install use_yarn (w0 wa wb : World Ext) :
  leaves_staging command ->
  install command skip_install use_yarn w0 = Ok tt wa ->
  shutil_rmtree build_dir true wa = Ok tt wb ->
  build__temp (fs wb) = build__temp (fs w0).
Proof.
  intros Hcmd Hinstall Hrm.
  apply shutil_rmtree_inv in Hrm as (_ & _ & _ & Hd & _).
  specialize (Hd temp_dir ltac:(discriminate)). cbn [get_dir] in Hd. rewrite Hd.
  apply install_inv in Hinstall. destruct skip_install.
  - now destruct Hinstall as (-> & _).
  - destruct Hinstall as (-> & _). apply Hcmd.
Qed.

(** X12. [main] removes the old output directory but not an old staging
    directory.  When the commands do not write to the staging directory and
    [main] returns, every regular file that was in the staging directory
    before the run is a regular file of the final output directory. *)
Theorem stale_staging_reaches_the_site
  versions (skip_install use_yarn : bool) (w0 w' : World Ext) :
  leaves_staging command ->
  main command versions skip_install use_yarn w0 = Ok tt w' ->
  forall p data,
    file_of p (build__temp (fs w0)) = Some data ->
    exists data', file_of p (build (fs w')) = Some data'.
Proof.
  intros Hcmd H p data Hp.
  apply main_Ok_inv in H as (wa & wb & wc & wd & Hinstall & Hrm & Hfor & Hrm' & Hmove).
  destruct (promote_inv _ _ _ Hrm' Hmove) as (-> & _).
  apply (for_versions_staging use_yarn (sorted versions) Hcmd wb wc Hfor p data).
  now rewrite (setup_staging _ _ _ _ _ Hcmd Hinstall Hrm).
Qed.

Lemma main_after_version versions skip_install use_yarn before v after
  (w0 w1 w2 : World Ext) :
  sorted versions = (before ++ v :: after)%list ->
  (install command skip_install use_yarn ;;
   shutil_rmtree build_dir true ;;
   for_versions command use_yarn before) w0 = Ok tt w1 ->
  build_version command use_yarn v w1 = Ok tt w2 ->
  main command versions skip_install use_yarn w0
  = (for_versions command use_yarn after ;;
     shutil_rmtree build_dir false ;;
     shutil_move temp_dir build_dir) w2.
Proof.
  intros Hsorted Hbefore Hv.
  apply bind_Ok_inv in Hbefore as ([] & wa & Hinstall & Hbefore).
  apply bind_Ok_inv in Hbefore as ([] & wb & Hrm & Hbefore).
  unfold main, build_docs. rewrite Hsorted.
  run Hinstall. run Hrm.
  rewrite (bind_ext _ _ _ _ (for_versions_app use_yarn before (v :: after))).
  run Hbefore.
  cbn [for_versions]. run Hv. reflexivity.
Qed.

(** X13. Output accumulates: when the commands do not write to the staging
    directory and [main] returns, every regular file that was in the staging
    directory after the merge of some version is a regular file of the final
    output directory, whatever the later versions produce. *)
Theorem merged_files_reach_the_site
  versions (skip_install use_yarn : bool) before v after (w0 w1 w2 w' : World Ext) :
  leaves_staging command ->
  sorted versions = (before ++ v :: after)%list ->
  (install command skip_install use_yarn ;;
   shutil_rmtree build_dir true ;;
   for_versions command use_yarn before) w0 = Ok tt w1 ->
  build_version command use_yarn v w1 = Ok tt w2 ->
  main command versions skip_install use_yarn w0 = Ok tt w' ->
  forall p data,
    file_of p (build__temp (fs w2)) = Some data ->
    exists data', file_of p (build (fs w')) = Some data'.
Proof.
  intros Hcmd Hsorted Hbefore Hv H p data Hp.
  rewrite (main_after_version _ _ _ _ _ _ _ _ _ Hsorted Hbefore Hv) in H.
  apply bind_Ok_inv in H as ([] & wc & Hfor & H).
  apply bind_Ok_inv in H as ([] & wd & Hrm & Hmove).
  destruct (promote_inv _ _ _ Hrm Hmove) as (-> & _).
  exact (for_versions_staging use_yarn after Hcmd w2 wc Hfor p data Hp).
Qed.

(** X14. The first merge is a copy: with no staging directory and an output
    directory that lists each name once, the merge returns and the staging
    directory is the output directory, entry for entry. *)
Theorem first_merge_is_a_copy (w : World Ext) out :
  build (fs w) = Some out ->
  build__temp (fs w) = None ->
  well_formed (Dir out) = true ->
  move_output w = Ok tt (on_fs (set_dir temp_dir (Some out)) w).
Proof.
  intros Hb Ht Hwf.
  unfold move_output, bind, os_path_isdir, sys_exit, ret. cbn [get_dir].
  rewrite Hb. cbn [negb]. unfold shutil_copytree. cbn [get_dir].
  rewrite Hb, Ht. cbv beta zeta. now rewrite copytree_fresh.
Qed.

(** X15. The merge brings in the output: when the merge returns, every
    regular file of an output directory that lists each name once is in the
    staging directory with its content, provided that along its path the
    staging directory has no regular file where the output has a directory,
    and no directory where the output has a regular file. *)
Theorem merge_copy_adds_output (w w' : World Ext) out :
  move_output w = Ok tt w' ->
  build (fs w) = Some out ->
  well_formed (Dir out) = true ->
  forall p data,
    file_at p out = Some data ->
    kinds_agree p out (match build__temp (fs w) with Some d => d | None => [] end) ->
    file_of p (build__temp (fs w')) = Some data.
Proof.
  intros H Hout Hwf p data Hp Hk.
  apply move_output_inv in H as (out' & Hout' & _ & -> & _).
  rewrite Hout in Hout'. inversion Hout'; subst out'.
  cbn [file_of]. now apply copytree_adds.
Qed.

(** X16. [sorted] puts "latest" last exactly when no version is above it in
    the order of [str]: with a version such as "main" or "v2" in the list,
    "latest" is not built last. *)
Theorem latest_is_built_last_iff (versions : list string) :
  In "latest" versions ->
  (last (sorted versions) EmptyString = "latest" <->
   forall v, In v versions -> le v "latest").
Proof.
  intros Hin.
  assert (Hne : sorted versions <> []).
  { intros E. apply sorted_In in Hin. now rewrite E in Hin. }
  split.
  - intros E v Hv. rewrite <- E.
    apply sorted_last; [apply sorted_sorted|now apply sorted_In].
  - intros Hall. apply le_antisym.
    + apply Hall. apply sorted_In. now apply last_In.
    + apply sorted_last; [apply sorted_sorted|now apply sorted_In].
Qed.

Lemma build_version_latest_redirects use_yarn (a : unit) (w w' : World Ext) :
  leaves_redirects command ->
  build_version command use_yarn "latest" w = Ok a w' ->
  redirects (fs w') = redirects (fs w).
Proof.
  intros Hcmd H. unfold build_version in H.
  apply bind_Ok_inv in H as ([] & wc & Hprint & H).
  apply bind_Ok_inv in H as ([] & wd & Hredirect & H).
  apply bind_Ok_inv in H as ([] & we & Hset & H).
  apply bind_Ok_inv in H as ([] & wf & Hbuild & H).
  apply bind_Ok_inv in H as ([] & wg & Hmove & Hrestore).
  apply print_inv in Hprint as (Hfs & _).
  apply redirect_to_version_inv in Hredirect as (Hr & _).
  apply set_buildVersion_inv in Hset as (lines & _ & _ & Hs & _).
  apply build_the_docs_inv in Hbuild as (Hb & _).
  apply move_output_inv in Hmove as (out & _ & _ & _ & _ & Hm & _).
  apply restore_redirects_inv in Hrestore as (Hback & _).
  pose proof (Hcmd (build_argv use_yarn) (ext we) (fs we)) as Hc.
  rewrite String.eqb_refl in Hr, Hback.
  rewrite Hback, Hm, Hb, Hc, Hs, Hr, Hfs. reflexivity.
Qed.

(** X17. The version "latest" is built on the redirect file as it is: in a
    run whose versions are all "latest" and whose commands do not write to
    the redirect file, the file is never opened for rewriting, and when
    [main] returns it is what it was, byte for byte, whatever it holds. *)
Theorem latest_alone_leaves_redirects
  versions (skip_install use_yarn : bool) (w0 w' : World Ext) :
  leaves_redirects command ->
  (forall v, In v versions -> v = "latest") ->
  main command versions skip_install use_yarn w0 = Ok tt w' ->
  redirects (fs w') = redirects (fs w0).
Proof.
  intros Hcmd Hall H.
  apply main_Ok_inv in H as (wa & wb & wc & wd & Hinstall & Hrm & Hfor & Hrm' & Hmove).
  apply shutil_move_inv in Hmove as (-> & _).
  apply shutil_rmtree_inv in Hrm' as (_ & -> & _).
  rewrite <- (setup_redirects _ _ _ _ _ Hcmd Hinstall Hrm).
  assert (Hall' : forall v, In v (sorted versions) -> v = "latest")
    by (intros v Hv; apply Hall; now apply sorted_In).
  clear Hinstall Hrm. revert wb Hfor Hall'.
  induction (sorted versions) as [|v vs IH]; intros wb Hfor Hall'.
  - now inversion Hfor.
  - cbn [for_versions] in Hfor.
    apply bind_Ok_inv in Hfor as ([] & w1 & Hv & Hfor).
    rewrite (Hall' v (or_introl eq_refl)) in Hv.
    rewrite (IH w1 Hfor (fun u Hu => Hall' u (or_intror Hu))).
    exact (build_version_latest_redirects _ _ _ _ Hcmd Hv).
Qed.

(** X18. The merge raises [shutil.Error] when the output has a directory
    under a name that is a regular file in the staging directory. *)
Theorem merge_raises_on_directory_over_file (w : World Ext) out staging n d f :
  build (fs w) = Some out ->
  build__temp (fs w) = Some staging ->
  lookup n out = Some (Dir d) ->
  lookup n staging = Some (File f) ->
  move_output w = Raised ShutilError (trace w).
Proof.
  intros Hb Ht Hout Hst.
  unfold move_output, bind, os_path_isdir, sys_exit, ret. cbn [get_dir].
  rewrite Hb. cbn [negb]. unfold shutil_copytree. cbn [get_dir].
  rewrite Hb, Ht. cbv beta zeta. unfold copytree.
  now rewrite (copy_entries_clash n f d out staging Hout Hst).
Qed.

(** ** The output directory between two versions *)

Lemma build_version_Ok_output use_yarn v (a : unit) (w w' : World Ext) :
  build_version command use_yarn v w = Ok a w' ->
  exists out, build (fs w') = Some out.
Proof.
  intros H. unfold build_version in H.
  apply bind_Ok_inv in H as ([] & wc & _ & H).
  apply bind_Ok_inv in H as ([] & wd & _ & H).
  apply bind_Ok_inv in H as ([] & we & _ & H).
  apply bind_Ok_inv in H as ([] & wf & _ & H).
  apply bind_Ok_inv in H as ([] & wg & Hmove & Hrestore).
  apply move_output_inv in Hmove as (out & Hout & _ & _ & Hb & _).
  apply restore_redirects_inv in Hrestore as (_ & _ & Hback & _).
  exists out. now rewrite Hback, Hb.
Qed.

Lemma for_versions_Ok_output use_yarn versions (w w' : World Ext) :
  versions <> [] ->
  for_versions command use_yarn versions w = Ok tt w' ->
  exists out, build (fs w') = Some out.
Proof.
  revert w. induction versions as [|v vs IH]; intros w Hne H; [congruence|].
  cbn [for_versions] in H.
  apply bind_Ok_inv in H as ([] & w1 & Hv & H).
  destruct vs as [|v2 vs].
  - cbn [for_versions] in H. inversion H; subst.
    exact (build_version_Ok_output _ _ _ _ _ Hv).
  - apply (IH w1); [discriminate|exact H].
Qed.

(** X20. Nothing removes the output directory between two versions, so the
    check after a build only finds out a build that fails at the first
    version.  When a version [v] comes after another one, the output
    directory of the version before it is there when the build of [v]
    starts; if the build command of [v] leaves that directory as it is, the
    check passes: the step does not end through [sys.exit], and the run goes
    on with the copy of that directory into the staging directory. *)
Theorem later_silent_failure_is_not_detected
  versions (skip_install use_yarn : bool) before v after (w0 w1 w2 : World Ext) :
  before <> [] ->
  sorted versions = (before ++ v :: after)%list ->
  (install command skip_install use_yarn ;;
   shutil_rmtree build_dir true ;;
   for_versions command use_yarn before) w0 = Ok tt w1 ->
  (print (announce v) ;;
   redirect_to_version v ;;
   set_buildVersion v ;;
   build_the_docs command use_yarn) w1 = Ok tt w2 ->
  build (fs w2) = build (fs w1) ->
  exists out,
    build (fs w1) = Some out /\
    (forall msg w', move_output w2 <> SysExit msg w') /\
    main command versions skip_install use_yarn w0
    = (shutil_copytree build_dir temp_dir ;;
       restore_redirects v ;;
       for_versions command use_yarn after ;;
       shutil_rmtree build_dir false ;;
       shutil_move temp_dir build_dir) w2.
Proof.
  intros Hne Hsorted Hbefore Hbuild Hsame.
  assert (Hout : exists out, build (fs w1) = Some out).
  { pose proof Hbefore as H.
    apply bind_Ok_inv in H as ([] & wa & _ & H).
    apply bind_Ok_inv in H as ([] & wb & _ & H).
    exact (for_versions_Ok_output _ _ _ _ Hne H). }
  destruct Hout as (out & Hout). exists out. split; [exact Hout|].
  assert (Hb : build (fs w2) = Some out) by congruence.
  split.
  - intros msg w' H. apply move_output_SysExit in H as (_ & _ & H). congruence.
  - rewrite (main_until_built _ _ _ _ _ _ _ _ _ Hsorted Hbefore Hbuild).
    unfold move_output, bind, os_path_isdir, sys_exit, ret. cbn [get_dir].
    rewrite Hb. reflexivity.
Qed.

End Run.

(** ** Exit codes *)

Section ExitCodes.

Context {Ext : Type}.
Variables c1 c2 : list string -> Ext -> FS -> Ext * FS * Z.
Hypothesis same_effects : forall argv e s, fst (c1 argv e s) = fst (c2 argv e s).

Lemma subprocess_run_discarded argv (w : World Ext) :
  (_ <- subprocess_run c1 argv ;; ret tt) w
  = (_ <- subprocess_run c2 argv ;; ret tt) w.
Proof.
  unfold bind, subprocess_run, ret.
  pose proof (same_effects argv (ext w) (fs w)) as E.
  destruct (c1 argv (ext w) (fs w)) as [[e1 s1] code1].
  destruct (c2 argv (ext w) (fs w)) as [[e2 s2] code2].
  cbn [fst] in E. now inversion E.
Qed.

Lemma build_the_docs_same use_yarn (w : World Ext) :
  build_the_docs c1 use_yarn w = build_the_docs c2 use_yarn w.
Proof.
  unfold build_the_docs. destruct use_yarn; cbn [negb];
    apply subprocess_run_discarded.
Qed.

Lemma install_same skip_install use_yarn (w : World Ext) :
  install c1 skip_install use_yarn w = install c2 skip_install use_yarn w.
Proof.
  unfold install. destruct skip_install; cbn [negb]; [reflexivity|].
  assert (Hprint : print "Installing Docusaurus..." w
                   = Ok tt (log (Print "Installing Docusaurus...") w))
    by reflexivity.
  rewrite !(bind_Ok _ _ _ _ _ Hprint).
  destruct use_yarn; cbn [negb]; apply subprocess_run_discarded.
Qed.

Lemma build_version_same use_yarn v (w : World Ext) :
  build_version c1 use_yarn v w = build_version c2 use_yarn v w.
Proof.
  unfold build_version, bind.
  destruct (print _ w) as [[] w1| |]; [|reflexivity|reflexivity].
  destruct (redirect_to_version v w1) as [[] w2| |]; [|reflexivity|reflexivity].
  destruct (set_buildVersion v w2) as [[] w3| |]; [|reflexivity|reflexivity].
  now rewrite build_the_docs_same.
Qed.

Lemma for_versions_same use_yarn versions (w : World Ext) :
  for_versions c1 use_yarn versions w = for_versions c2 use_yarn versions w.
Proof.
  revert w. induction versions as [|v vs IH]; intros w; [reflexivity|].
  cbn [for_versions]. unfold bind. rewrite build_version_same.
  destruct (build_version c2 use_yarn v w); [apply IH|reflexivity|reflexivity].
Qed.

Lemma main_same versions skip_install use_yarn (w : World Ext) :
  main c1 versions skip_install use_yarn w = main c2 versions skip_install use_yarn w.
Proof.
  unfold main, build_docs. unfold bind. rewrite install_same.
  destruct (install c2 skip_install use_yarn w) as [[] w1| |]; [|reflexivity|reflexivity].
  destruct (shutil_rmtree build_dir true w1) as [[] w2| |]; [|reflexivity|reflexivity].
  now rewrite for_versions_same.
Qed.

End ExitCodes.

(** C1 (amended).  The exit code of the install command and of the build
    commands has no effect on the run: [subprocess.run] returns whatever the
    code is and the script does not look at it.  The outcome of the process
    (how it ends, with which files, trace and exit status) is the one it has
    when every command exits with status 0. *)
Theorem exit_codes_are_ignored {Ext : Type}
  (command : list string -> Ext -> FS -> Ext * FS * Z)
  versions skip_install use_yarn (w : World Ext) :
  main command versions skip_install use_yarn w
  = main (succeeding command) versions skip_install use_yarn w /\
  exit_status (main command versions skip_install use_yarn w)
  = exit_status (main (succeeding command) versions skip_install use_yarn w).
Proof.
  assert (E : main command versions skip_install use_yarn w
              = main (succeeding command) versions skip_install use_yarn w)
    by (apply main_same; reflexivity).
  now rewrite E.
Qed.

(* ===================================================================== *)
(** * Part III: the properties on concrete runs *)
(* ===================================================================== *)

Lemma scripted_leaves_redirects (code : Z) : leaves_redirects (scripted code).
Proof.
  intros argv e s. unfold scripted.
  destruct (is_install argv); [reflexivity|].
  destruct e as [|[out c] e]; reflexivity.
Qed.

Lemma scripted_leaves_config (code : Z) : leaves_config (scripted code).
Proof.
  intros argv e s. unfold scripted.
  destruct (is_install argv); [reflexivity|].
  destruct e as [|[out c] e]; reflexivity.
Qed.

(** C1, as stated, fails: the install command exits with status 1 and the
    build of 9.0.0 with status 2, yet both versions are built and the process
    exits with status 0. *)
Lemma exit_codes_counterexample :
  snd (scripted 1 ["npm"; "install"] failing site) = 1%Z /\
  snd (scripted 1 ["npm"; "run"; "build"] failing site) = 2%Z /\
  exit_status (main (scripted 1) ["latest"; "9.0.0"] false false (start site failing))
  = 0%Z /\
  commands (trace_of (main (scripted 1) ["latest"; "9.0.0"] false false
                           (start site failing)))
  = [["npm"; "install"]; ["npm"; "run"; "build"]; ["npm"; "run"; "build"]] /\
  output (trace_of (main (scripted 1) ["latest"; "9.0.0"] false false
                         (start site failing)))
  = ["Installing Docusaurus...";
     "Building the docs for version '9.0.0'...";
     "Building the docs for version 'latest'..."].
Proof. repeat split; reflexivity. Qed.

(** C2, as stated, fails: every build succeeds, and the "/9.0.0/" the redirect
    file held before the run has become "/latest/". *)
Lemma redirects_restored_counterexample :
  exists w' : World script,
    main (scripted 0) ["9.0.0"] true false
         (start site_with_version [(Some (page "9.0.0"), 0%Z)]) = Ok tt w' /\
    redirects (fs w') = "old: /latest/intro" ++ NL ++ "new: /latest/intro" ++ NL /\
    redirects (fs w') <> redirects site_with_version.
Proof.
  eexists. split; [reflexivity|]. split; [reflexivity|]. discriminate.
Qed.

Lemma redirects_restored_witness :
  exists w' : World script,
    main (scripted 0) ["latest"; "9.0.0"] false false (start site builds) = Ok tt w' /\
    redirects (fs w') = redirects (fs (start site builds)).
Proof.
  eexists. split; [reflexivity|].
  eapply (redirects_restored (scripted 0) ["latest"; "9.0.0"] false false
            (start site builds)).
  - apply scripted_leaves_redirects.
  - intros v [<- | [<- | []]]; repeat split; reflexivity.
  - reflexivity.
  - intros v [<- | [<- | []]] Hne; [congruence | reflexivity].
  - reflexivity.
Defined.

Lemma abort_leaves_redirects_rewritten_witness :
  exists w1 w2 : World script,
    (main (scripted 0) ["latest"; "9.0.0"] false false (start site silent)
     = SysExit not_built w2 /\
     redirects (fs w2)
     = inplace (fun line => str_replace "/latest/" ("/" ++ "9.0.0" ++ "/") line)
               (redirects (fs w1))) /\
    redirects (fs w2) = "sidebar: /9.0.0/operations/foo" ++ NL.
Proof.
  eexists. eexists. split.
  - eapply (abort_leaves_redirects_rewritten (scripted 0) ["latest"; "9.0.0"]
              false false [] "9.0.0" ["latest"] (start site silent)).
    + apply scripted_leaves_redirects.
    + discriminate.
    + reflexivity.
    + reflexivity.
    + reflexivity.
    + reflexivity.
  - reflexivity.
Defined.

Lemma missing_output_is_fatal_witness :
  exists w2 : World script,
    (main (scripted 0) ["latest"; "9.0.0"] false false (start site silent)
     = SysExit not_built w2 /\
     exit_status (main (scripted 0) ["latest"; "9.0.0"] false false (start site silent))
     = 1%Z /\
     trace_of (main (scripted 0) ["latest"; "9.0.0"] false false (start site silent))
     = trace w2) /\
    commands (trace w2) = [["npm"; "install"]; ["npm"; "run"; "build"]] /\
    build__temp (fs w2) = None.
Proof.
  eexists. split.
  - eapply (missing_output_is_fatal (scripted 0) ["latest"; "9.0.0"]
              false false [] "9.0.0" ["latest"] (start site silent)).
    + reflexivity.
    + reflexivity.
    + reflexivity.
    + reflexivity.
  - split; reflexivity.
Defined.

(** C5.  The script at the single version made of the five characters
    1, ., 0, backslash and n, on a configuration file of one declaration
    line: the version is put into the replacement template of [re.sub] as it
    is, and the template turns the backslash and [n] into a line break.  The
    run returns; the declaration is then cut in two lines, the file holds no
    declaration of that version and is not the file a rewrite with that
    declaration gives. *)
Lemma last_write_counterexample :
  exists w' : World script,
    main (scripted 0) ["1.0\n"] true false (start site [(Some (page "1.0"), 0%Z)])
    = Ok tt w' /\
    config (fs w')
    = "var buildVersion = " ++ String DQUOTE ("1.0" ++ NL ++ String DQUOTE (";" ++ NL)) /\
    str_in (declaration "1.0\n") (config (fs w')) = false /\
    config (fs w') <> config_for "1.0\n" (config site).
Proof.
  eexists. split; [reflexivity|]. split; [reflexivity|]. split; [reflexivity|].
  discriminate.
Qed.

Lemma versions_in_order_last_write_wins_witness :
  exists w' : World script,
    main (scripted 0) ["latest"; "9.0.0"] false false (start site builds) = Ok tt w' /\
    In (last (sorted ["latest"; "9.0.0"]) EmptyString) ["latest"; "9.0.0"] /\
    (forall u, In u ["latest"; "9.0.0"] -> le u (last (sorted ["latest"; "9.0.0"]) EmptyString)) /\
    config (fs w')
    = config_for (last (sorted ["latest"; "9.0.0"]) EmptyString) (config (fs (start site builds))).
Proof.
  eexists. split; [reflexivity|].
  eapply (versions_in_order_last_write_wins (scripted 0) ["latest"; "9.0.0"]
            false false (start site builds)).
  - apply scripted_leaves_config.
  - intros v [<- | [<- | []]]; reflexivity.
  - reflexivity.
Defined.

(** C6, as stated, fails: one line of the file matches, and the line before
    it, which ended in CR LF, ends in LF after the rewrite. *)
Lemma one_line_counterexample :
  List.length (filter (startswith buildVersion_prefix) (readlines (config site_crlf))) = 1 /\
  exists w' : World script,
    set_buildVersion "1" (start site_crlf []) = Ok tt w' /\
    config (fs w') = "// site" ++ NL ++ declaration "1" ++ NL /\
    startswith ("// site" ++ CRLF) (config site_crlf) = true /\
    startswith ("// site" ++ CRLF) (config (fs w')) = false /\
    config (fs w') <> "// site" ++ CRLF ++ declaration "1" ++ CRLF.
Proof.
  split; [reflexivity|]. eexists.
  split; [reflexivity|]. split; [reflexivity|]. split; [reflexivity|].
  split; [reflexivity|]. discriminate.
Qed.

Lemma set_buildVersion_one_line_witness :
  (char_in BACKSLASH "9.0.0" = false /\
   char_in CR (config (fs (start site_lines []))) = false /\
   List.length (filter (startswith buildVersion_prefix)
                       (readlines (config (fs (start site_lines []))))) = 1) /\
  exists before body eol after,
    (readlines (config (fs (start site_lines [])))
     = (before ++ (body ++ eol)%string :: after)%list /\
     config (fs (start site_lines [])) = printed before ++ (body ++ eol) ++ printed after /\
     startswith buildVersion_prefix body = true /\
     char_in LF body = false /\
     (eol = EmptyString \/ eol = String LF EmptyString) /\
     filter (startswith buildVersion_prefix) before = [] /\
     filter (startswith buildVersion_prefix) after = [] /\
     set_buildVersion "9.0.0" (start site_lines [])
     = Ok tt (on_fs (write docusaurus_config_js
                       (printed before ++ (declaration "9.0.0" ++ eol) ++ printed after))
                    (start site_lines []))) /\
    before = ["// site" ++ NL] /\
    eol = NL /\
    after = ["  module.exports = {};  " ++ NL; "// end"] /\
    printed before ++ (declaration "9.0.0" ++ eol) ++ printed after
    = "// site" ++ NL ++ declaration "9.0.0" ++ NL
      ++ "  module.exports = {};  " ++ NL ++ "// end".
Proof.
  split; [repeat split|].
  destruct (set_buildVersion_one_line "9.0.0" (start site_lines [])
              eq_refl eq_refl eq_refl)
    as (before & body & eol & after
        & Hsplit & Hfile & Hstart & Hbody & Heol & Hb & Ha & Hrun).
  exists before, body, eol, after.
  split; [repeat (split; [assumption|]); exact Hrun|].
  assert (Hline : startswith buildVersion_prefix (body ++ eol) = true)
    by (now apply startswith_extend).
  change (readlines (config (fs (start site_lines []))))
    with ["// site" ++ NL; declaration "0" ++ NL;
          "  module.exports = {};  " ++ NL; "// end"] in Hsplit.
  destruct before as [|b0 before]; cbn [app] in Hsplit.
  { injection Hsplit as E _. rewrite <- E in Hline. discriminate Hline. }
  injection Hsplit as <- Hsplit.
  destruct before as [|b1 before]; cbn [app] in Hsplit.
  - injection Hsplit as E <-.
    assert (Hnl : eol = NL).
    { destruct Heol as [-> | ->]; [|reflexivity].
      rewrite append_nil_r in E. rewrite <- E in Hbody. discriminate Hbody. }
    rewrite Hnl. repeat split; reflexivity.
  - injection Hsplit as <- _. discriminate Hb.
Defined.

(** C7, as stated, fails: with a line break in the version, the second
    rewrite leaves a line more than the first. *)
Lemma idempotent_counterexample :
  exists w1 w2 : World script,
    set_buildVersion ("a" ++ NL ++ "b") (start site []) = Ok tt w1 /\
    (set_buildVersion ("a" ++ NL ++ "b") ;; set_buildVersion ("a" ++ NL ++ "b"))
      (start site []) = Ok tt w2 /\
    config (fs w1)
    = "var buildVersion = " ++ String DQUOTE ("a" ++ NL ++ "b" ++ String DQUOTE (";" ++ NL)) /\
    config (fs w2)
    = "var buildVersion = " ++ String DQUOTE ("a" ++ NL ++ "b" ++ String DQUOTE (";" ++ NL))
      ++ "b" ++ String DQUOTE (";" ++ NL) /\
    config (fs w2) <> config (fs w1).
Proof.
  eexists. eexists. split; [reflexivity|]. split; [reflexivity|].
  split; [reflexivity|]. split; [reflexivity|]. discriminate.
Qed.

Lemma set_buildVersion_idempotent_witness :
  (set_buildVersion "9.0.0" ;; set_buildVersion "9.0.0") (start site [])
  = set_buildVersion "9.0.0" (start site []).
Proof.
  apply (set_buildVersion_idempotent "9.0.0" (start site [])). reflexivity.
Defined.

Lemma merge_copy_keeps_staging_witness :
  exists (w' : World script) staging',
    move_output (start site_staged []) = Ok tt w' /\
    build__temp (fs w') = Some staging' /\
    (forall p data,
       file_at p [("index.html", File "A"); ("docs", Dir [("a.html", File "A")])]
       = Some data ->
       exists data', file_at p staging' = Some data') /\
    (forall p data,
       file_at p [("index.html", File "A"); ("docs", Dir [("a.html", File "A")])]
       = Some data ->
       (forall q, on_path q p ->
          file_at q [("index.html", File "B"); ("docs", Dir [("b.html", File "B")])]
          = None) ->
       file_at p staging' = Some data) /\
    (forall p data data',
       file_at p [("index.html", File "B"); ("docs", Dir [("b.html", File "B")])]
       = Some data' ->
       file_at p [("index.html", File "A"); ("docs", Dir [("a.html", File "A")])]
       = Some data ->
       file_at p staging' = Some data') /\
    file_at ["docs"; "a.html"] staging' = Some "A" /\
    file_at ["docs"; "b.html"] staging' = Some "B" /\
    file_at ["index.html"] staging' = Some "B".
Proof.
  eexists.
  destruct (merge_copy_keeps_staging (start site_staged []) _
              [("index.html", File "B"); ("docs", Dir [("b.html", File "B")])]
              eq_refl eq_refl eq_refl)
    as (staging' & Htemp & H0 & H1 & H2).
  exists staging'.
  split; [reflexivity|]. split; [exact Htemp|].
  split; [exact H0|]. split; [exact H1|]. split; [exact H2|].
  cbn in Htemp. inversion Htemp. repeat split; reflexivity.
Defined.

(** C9, as stated, fails: the version is "/", the file holds no "///", and
    the two rewrites turn "//latest/" into "/latest//". *)
Lemma round_trip_counterexample :
  "/" <> "latest" /\
  str_in ("/" ++ "/" ++ "/") "//latest/" = false /\
  exists w' : World script,
    (redirect_to_version "/" ;; restore_redirects "/")
      (start (mkFS "//latest/" (declaration "0") None None) []) = Ok tt w' /\
    redirects (fs w') = "/latest//" /\
    redirects (fs w') <> "//latest/".
Proof.
  split; [discriminate|]. split; [reflexivity|]. eexists.
  split; [reflexivity|]. split; [reflexivity|]. discriminate.
Qed.

Lemma redirect_then_restore_witness :
  (redirect_to_version "9.0.0" ;; restore_redirects "9.0.0") (start site [])
  = Ok tt (start site []).
Proof.
  apply (redirect_then_restore "9.0.0" (start site [])); reflexivity.
Defined.

(** ** The further properties on concrete runs *)

Lemma scripted_leaves_staging (code : Z) : leaves_staging (scripted code).
Proof.
  intros argv e s. unfold scripted.
  destruct (is_install argv); [reflexivity|].
  destruct e as [|[out c] e]; reflexivity.
Qed.

Lemma set_buildVersion_without_declaration_witness :
  set_buildVersion "9.0.0" (start site_bare []) = Ok tt (start site_bare []).
Proof.
  apply (set_buildVersion_without_declaration "9.0.0" (start site_bare []));
    reflexivity.
Defined.

Lemma set_buildVersion_rewrites_every_declaration_witness :
  exists w' : World script,
    set_buildVersion "9.0.0" (start site_twice []) = Ok tt w' /\
    readlines (config (fs w'))
    = map (set_line (declaration "9.0.0")) (readlines (config (fs (start site_twice [])))) /\
    List.length (readlines (config (fs w')))
    = List.length (readlines (config (fs (start site_twice [])))) /\
    (forall l, In l (readlines (config (fs w'))) ->
       startswith buildVersion_prefix l = true ->
       l = declaration "9.0.0" \/ l = declaration "9.0.0" ++ NL).
Proof.
  eexists. split; [reflexivity|].
  apply (set_buildVersion_rewrites_every_declaration "9.0.0" (start site_twice []));
    reflexivity.
Defined.

Lemma redirect_to_version_without_latest_witness :
  redirect_to_version "9.0.0" (start site_bare []) = Ok tt (start site_bare []).
Proof.
  apply (redirect_to_version_without_latest "9.0.0" (start site_bare []));
    reflexivity.
Defined.

Lemma rewritten_files_hold_no_CR_witness :
  exists w1 w2 : World script,
    (redirect_to_version "9.0.0" (start site_dos []) = Ok tt w1 /\
     char_in CR (redirects (fs (start site_dos []))) = true /\
     char_in CR (redirects (fs w1)) = false) /\
    (set_buildVersion "9.0.0" (start site_dos []) = Ok tt w2 /\
     char_in CR (config (fs (start site_dos []))) = true /\
     char_in CR (config (fs w2)) = false).
Proof.
  eexists. eexists. split.
  - split; [reflexivity|]. split; [reflexivity|].
    apply (proj1 (rewritten_files_hold_no_CR "9.0.0" (start site_dos []) _ eq_refl));
      [discriminate|reflexivity].
  - split; [reflexivity|]. split; [reflexivity|].
    apply (proj2 (rewritten_files_hold_no_CR "9.0.0" (start site_dos []) _ eq_refl));
      reflexivity.
Defined.

Lemma order_of_versions_is_irrelevant_witness :
  main (scripted 0) ["latest"; "9.0.0"] false false (start site builds)
  = main (scripted 0) ["9.0.0"; "latest"] false false (start site builds).
Proof.
  apply (order_of_versions_is_irrelevant (scripted 0)). apply perm_swap.
Defined.

Lemma successful_run_builds_every_version_witness :
  exists w' : World script,
    main (scripted 0) ["latest"; "latest"] true true
         (start site [(Some (page "a"), 0%Z); (Some (page "b"), 0%Z)]) = Ok tt w' /\
    commands (trace w') = [["yarn"; "build"]; ["yarn"; "build"]].
Proof.
  eexists. split; [reflexivity|].
  apply (successful_run_builds_every_version (scripted 0) ["latest"; "latest"]
           true true (start site [(Some (page "a"), 0%Z); (Some (page "b"), 0%Z)])).
  reflexivity.
Defined.

Lemma sys_exit_means_missing_output_witness :
  exists w' : World script,
    main (scripted 0) ["latest"; "9.0.0"] false false (start site silent)
    = SysExit not_built w' /\
    not_built = not_built /\ build (fs w') = None /\
    exit_status (main (scripted 0) ["latest"; "9.0.0"] false false (start site silent))
    = 1%Z.
Proof.
  eexists. split; [reflexivity|].
  apply (sys_exit_means_missing_output (scripted 0) ["latest"; "9.0.0"] false false
           (start site silent)).
  reflexivity.
Defined.

Lemma silent_build_failure_is_detected_witness :
  exists w' : World script,
    main broken ["latest"; "9.0.0"] false false (start site_stale [])
    = SysExit not_built w' /\
    commands (trace w')
    = (commands (trace (start site_stale []))
       ++ [install_argv false] ++ [build_argv false])%list.
Proof.
  apply (silent_build_failure_is_detected broken ["latest"; "9.0.0"] false false
           (start site_stale [])).
  - discriminate.
  - intros v [<- | [<- | []]]; reflexivity.
  - intros e s H. exact H.
Defined.

Lemma successful_run_promotes_staging_witness :
  exists w' : World script,
    main (scripted 0) ["latest"; "9.0.0"] false false (start site_stale builds)
    = Ok tt w' /\
    (exists wc staged,
       (install (scripted 0) false false ;;
        shutil_rmtree build_dir true ;;
        for_versions (scripted 0) false (sorted ["latest"; "9.0.0"]))
         (start site_stale builds) = Ok tt wc /\
       build__temp (fs wc) = Some staged /\
       w' = mkWorld (mkFS (redirects (fs wc)) (config (fs wc)) (Some staged) None)
                    (ext wc) (trace wc)) /\
    build (fs w') = Some [("old.html", File "old"); ("index.html", File "latest")].
Proof.
  eexists. split; [reflexivity|]. split.
  - apply (successful_run_promotes_staging (scripted 0) ["latest"; "9.0.0"] false false
             (start site_stale builds)).
    reflexivity.
  - reflexivity.
Defined.

Lemma stale_staging_reaches_the_site_witness :
  exists w' : World script,
    main (scripted 0) ["latest"; "9.0.0"] false false (start site_stale builds)
    = Ok tt w' /\
    (forall p data,
       file_of p (build__temp (fs (start site_stale builds))) = Some data ->
       exists data', file_of p (build (fs w')) = Some data') /\
    file_of ["old.html"] (build (fs w')) = Some "old".
Proof.
  eexists. split; [reflexivity|]. split; [|reflexivity].
  apply (stale_staging_reaches_the_site (scripted 0) ["latest"; "9.0.0"] false false
           (start site_stale builds)).
  - apply scripted_leaves_staging.
  - reflexivity.
Defined.

Lemma merged_files_reach_the_site_witness :
  exists w1 w2 w' : World script,
    (install (scripted 0) false false ;;
     shutil_rmtree build_dir true ;;
     for_versions (scripted 0) false []) (start site builds_apart) = Ok tt w1 /\
    build_version (scripted 0) false "9.0.0" w1 = Ok tt w2 /\
    main (scripted 0) ["latest"; "9.0.0"] false false (start site builds_apart)
    = Ok tt w' /\
    (forall p data,
       file_of p (build__temp (fs w2)) = Some data ->
       exists data', file_of p (build (fs w')) = Some data') /\
    file_of ["9.html"] (build__temp (fs w2)) = Some "9" /\
    file_of ["9.html"] (build (fs w')) = Some "9" /\
    file_of ["index.html"] (build (fs w')) = Some "latest".
Proof.
  eexists. eexists. eexists.
  split; [reflexivity|]. split; [reflexivity|]. split; [reflexivity|].
  split; [|repeat split; reflexivity].
  eapply (merged_files_reach_the_site (scripted 0) ["latest"; "9.0.0"] false false
           [] "9.0.0" ["latest"] (start site builds_apart)).
  - apply scripted_leaves_staging.
  - reflexivity.
  - reflexivity.
  - reflexivity.
  - reflexivity.
Defined.

Lemma first_merge_is_a_copy_witness :
  move_output (start site_built [])
  = Ok tt (on_fs (set_dir temp_dir
                    (Some [("index.html", File "B"); ("docs", Dir [("b.html", File "B")])]))
                 (start site_built [])).
Proof.
  apply (first_merge_is_a_copy (start site_built [])); reflexivity.
Defined.

Lemma merge_copy_adds_output_witness :
  exists w' : World script,
    move_output (start site_staged []) = Ok tt w' /\
    file_of ["docs"; "b.html"] (build__temp (fs w')) = Some "B".
Proof.
  eexists. split; [reflexivity|].
  apply (merge_copy_adds_output (start site_staged []) _
           [("index.html", File "B"); ("docs", Dir [("b.html", File "B")])]).
  - reflexivity.
  - reflexivity.
  - reflexivity.
  - reflexivity.
  - intros q [r Hr].
    destruct q as [|a [|b [|c q]]]; inversion Hr; subst; cbn; exact I.
Defined.

Lemma latest_is_built_last_iff_witness :
  last (sorted ["latest"; "9.0.0"; "26.0.0"]) EmptyString = "latest" <->
  (forall v, In v ["latest"; "9.0.0"; "26.0.0"] -> le v "latest").
Proof.
  apply (latest_is_built_last_iff ["latest"; "9.0.0"; "26.0.0"]). now left.
Defined.

Lemma latest_alone_leaves_redirects_witness :
  exists w' : World script,
    main (scripted 0) ["latest"] false false
         (start site_dos [(Some (page "latest"), 0%Z)]) = Ok tt w' /\
    redirects (fs w') = redirects (fs (start site_dos [(Some (page "latest"), 0%Z)])).
Proof.
  eexists. split; [reflexivity|].
  apply (latest_alone_leaves_redirects (scripted 0) ["latest"] false false
           (start site_dos [(Some (page "latest"), 0%Z)])).
  - apply scripted_leaves_redirects.
  - intros v [<- | []]. reflexivity.
  - reflexivity.
Defined.

Lemma merge_raises_on_directory_over_file_witness :
  move_output (start site_clash []) = Raised ShutilError [].
Proof.
  apply (merge_raises_on_directory_over_file (start site_clash [])
           [("docs", Dir [("a.html", File "A")])] [("docs", File "x")]
           "docs" [("a.html", File "A")] "x"); reflexivity.
Defined.

Lemma later_silent_failure_is_not_detected_witness :
  exists w1 w2 : World bool,
    (install flaky true false ;;
     shutil_rmtree build_dir true ;;
     for_versions flaky false ["9.0.0"]) (mkWorld site true []) = Ok tt w1 /\
    (print (announce "latest") ;;
     redirect_to_version "latest" ;;
     set_buildVersion "latest" ;;
     build_the_docs flaky false) w1 = Ok tt w2 /\
    build (fs w2) = build (fs w1) /\
    (exists out,
       build (fs w1) = Some out /\
       (forall msg w', move_output w2 <> SysExit msg w') /\
       main flaky ["latest"; "9.0.0"] true false (mkWorld site true [])
       = (shutil_copytree build_dir temp_dir ;;
          restore_redirects "latest" ;;
          for_versions flaky false [] ;;
          shutil_rmtree build_dir false ;;
          shutil_move temp_dir build_dir) w2) /\
    exists w' : World bool,
      main flaky ["latest"; "9.0.0"] true false (mkWorld site true []) = Ok tt w' /\
      build (fs w') = Some (page "9.0.0") /\
      config (fs w') = declaration "latest" ++ NL /\
      commands (trace w') = [build_argv false; build_argv false].
Proof.
  eexists. eexists.
  split; [reflexivity|]. split; [reflexivity|]. split; [reflexivity|]. split.
  - eapply (later_silent_failure_is_not_detected flaky ["latest"; "9.0.0"] true false
              ["9.0.0"] "latest" [] (mkWorld site true [])).
    + discriminate.
    + reflexivity.
    + reflexivity.
    + reflexivity.
    + reflexivity.
  - eexists. repeat split.
Defined.
